(** * Stream protocol of the sensory subsystem

    A shallow embedding of
      - opencog/atoms/filedir/TextFileStream.cc   (file-backed line stream)
      - opencog/atoms/terminal/TerminalStream.cc  (xterm-backed terminal stream)

    The C++ methods mutate the receiver and talk to the operating system.
    Both are made explicit: a method is a function from a state (the object's
    fields paired with a [World]) to an [outcome] and a new state.  The
    [World] carries a trace of every system call, evaluator call and
    upstream pull, so that "the file was not touched" or "the evaluator was
    not called" are statements about the trace. *)

From Stdlib Require Import String Ascii List ZArith Bool Arith Lia.
Import ListNotations.
Local Open Scope string_scope.
Local Open Scope list_scope.

Set Implicit Arguments.
Set Warnings "-register-all".

(* ================================================================== *)
(** ** Strings: std::string versus char*                               *)
(* ================================================================== *)

(** A [std::string] is any sequence of bytes.  What stdio sees through
    [c_str()] (and what [std::string(const char* )] keeps) stops at the
    first NUL byte. *)
Definition NUL : ascii := Ascii.zero.
Definition NL : ascii := "010"%char.

Fixpoint c_str (s : string) : string :=
  match s with
  | EmptyString => EmptyString
  | String c s' => if Ascii.eqb c NUL then EmptyString else String c (c_str s')
  end.

Fixpoint no_nul (s : string) : bool :=
  match s with
  | EmptyString => true
  | String c s' => negb (Ascii.eqb c NUL) && no_nul s'
  end.

(** [s.substr(n)] for [n <= s.size()]: everything from position [n] on. *)
Fixpoint substr (n : nat) (s : string) : string :=
  match n, s with
  | O, _ => s
  | S n', String _ s' => substr n' s'
  | S _, EmptyString => EmptyString
  end.

(** [s.compare(0, len, lit) == 0]: the first [len] characters of [s] (or
    all of [s] when it is shorter) are exactly [lit]. *)
Definition compare_eq0 (len : nat) (s lit : string) : bool :=
  String.eqb (String.substring 0 len s) lit.

Definition concat_strings (l : list string) : string :=
  fold_right String.append EmptyString l.

(* ================================================================== *)
(** ** Atoms and values                                                *)
(* ================================================================== *)

(** Modelled from the spec: the type tags and their hierarchy are
    declared outside the two source files (atom_types, sensory_types).
    Section 4.3 names the kinds the serializer tells apart: text
    sequences, named items, nested-value containers and, among them, the
    streaming ones, the two legacy groupings (list and set), and anything
    else.  Every node type is a NODE, every link type a LINK, and
    LINK_STREAM_VALUE is a LINK_VALUE. *)
Inductive Type_ : Set :=
  | STRING_VALUE | FLOAT_VALUE | LINK_VALUE | LINK_STREAM_VALUE
  | NODE | ITEM_NODE | SENSORY_NODE | CONCEPT_NODE
  | LINK | LIST_LINK | SET_LINK | ORDERED_LINK | EXECUTION_OUTPUT_LINK.

Definition Type_eqb (a b : Type_) : bool :=
  match a, b with
  | STRING_VALUE, STRING_VALUE | FLOAT_VALUE, FLOAT_VALUE
  | LINK_VALUE, LINK_VALUE | LINK_STREAM_VALUE, LINK_STREAM_VALUE
  | NODE, NODE | ITEM_NODE, ITEM_NODE | SENSORY_NODE, SENSORY_NODE
  | CONCEPT_NODE, CONCEPT_NODE
  | LINK, LINK | LIST_LINK, LIST_LINK | SET_LINK, SET_LINK
  | ORDERED_LINK, ORDERED_LINK
  | EXECUTION_OUTPUT_LINK, EXECUTION_OUTPUT_LINK => true
  | _, _ => false
  end.

(** [nameserver().isA(t, u)], over the hierarchy above. *)
Definition isA (t u : Type_) : bool :=
  Type_eqb t u ||
  match t, u with
  | LINK_STREAM_VALUE, LINK_VALUE => true
  | (ITEM_NODE | SENSORY_NODE | CONCEPT_NODE), NODE => true
  | (LIST_LINK | SET_LINK | ORDERED_LINK | EXECUTION_OUTPUT_LINK), LINK => true
  | _, _ => false
  end.

Inductive NodeType : Set := NItem | NSensory | NConcept.
Inductive LinkType : Set := LList | LSet | LOrdered | LExecutionOutput.

Definition node_type (t : NodeType) : Type_ :=
  match t with NItem => ITEM_NODE | NSensory => SENSORY_NODE | NConcept => CONCEPT_NODE end.
Definition link_type (t : LinkType) : Type_ :=
  match t with
  | LList => LIST_LINK | LSet => SET_LINK | LOrdered => ORDERED_LINK
  | LExecutionOutput => EXECUTION_OUTPUT_LINK
  end.

(** A [Handle]: a node with a name or a link with an outgoing set. *)
Inductive Atom : Type :=
  | Node (t : NodeType) (name : string)
  | Link (t : LinkType) (oset : list Atom).

(** Upstream streaming values are told apart by an identity: two
    references to one stream share its progress. *)
Definition StreamId := nat.

(** A [ValuePtr]. *)
Inductive Value : Type :=
  | Atomic (a : Atom)
  | StringValue (strs : list string)
  | FloatValue (nums : list Z)
  | LinkValue (vals : list Value)
  | LinkStreamValue (id : StreamId).

Definition get_type (v : Value) : Type_ :=
  match v with
  | Atomic (Node t _) => node_type t
  | Atomic (Link t _) => link_type t
  | StringValue _ => STRING_VALUE
  | FloatValue _ => FLOAT_VALUE
  | LinkValue _ => LINK_VALUE
  | LinkStreamValue _ => LINK_STREAM_VALUE
  end.

Definition is_type (v : Value) (t : Type_) : bool := isA (get_type v) t.

Definition createNode (t : NodeType) (name : string) : Value := Atomic (Node t name).

(* ================================================================== *)
(** ** The world outside the stream object                             *)
(* ================================================================== *)

Inductive event : Type :=
  | EFopen (path : string)
  | EFgets
  | EFprintf (bytes : string)
  | EFflush
  | EFclose
  | EOpenpt
  | EUnlockpt (fd : Z)
  | EPtsname (fd : Z)
  | EFork
  | EExecl (pts : string) (fd : Z)
  | EClose (fd : Z)
  | EKill (pid : Z)
  | EExecute (cref : Atom)
  | EPull (id : StreamId).

(** [trace]: what has been done so far, oldest first.
    [pulled id]: how many batches have been taken from upstream stream [id].
    [cached id]: the batch that stream [id] holds in its [_value] right
    now, which is what its [size()] reports. *)
Record World : Type := mkWorld {
  trace  : list event;
  pulled : StreamId -> nat;
  cached : StreamId -> list Value
}.

(** An open [FILE*]: the bytes between its position and the end of what
    there is to read, and the bytes written through it. *)
Record FILE : Type := mkFILE {
  unread  : string;
  written : string
}.

(** One [fgets(buff, size, fh)]: at most [size - 1] characters, stopping
    after a newline; [None] (the null pointer) when nothing is left. *)
Fixpoint read_line (n : nat) (s : string) : string * string :=
  match n, s with
  | S n', String c s' =>
      if Ascii.eqb c NL then (String c EmptyString, s')
      else let (l, r) := read_line n' s' in (String c l, r)
  | _, _ => (EmptyString, s)
  end.

Definition fgets (size : nat) (f : FILE) : option string * FILE :=
  match unread f with
  | EmptyString => (None, f)
  | String _ _ =>
      let (l, r) := read_line (size - 1) (unread f) in
      (Some l, mkFILE r (written f))
  end.

(** [fprintf] on the slave side of a pseudo-terminal: what is written
    goes to the terminal and what is read comes from it, so the two
    directions do not meet. *)
Definition fputs (bytes : string) (f : FILE) : FILE :=
  mkFILE (unread f) (String.append (written f) bytes).

(** [fprintf] on a file opened with mode a+: the bytes go to the end of
    the file and leave the position there, so that nothing is left to
    read through the handle afterwards.  A call that produces no byte
    leaves the handle alone. *)
Definition fappend (bytes : string) (f : FILE) : FILE :=
  match bytes with
  | EmptyString => f
  | String _ _ => mkFILE EmptyString (String.append (written f) bytes)
  end.

Definition BUFSZ : nat := 4080.

(* ================================================================== *)
(** ** Outcomes and the state-and-exception monad                      *)
(* ================================================================== *)

(** Every failure in the two files is a [RuntimeException]; the
    constructors keep the message and its arguments apart. *)
Inductive exn : Type :=
  | UnsupportedURL (url : string)              (* "Unsupported URL ..." *)
  | UnableToOpen (url : string) (errno : Z)     (* "Unable to open URL ..." *)
  | ExpectingSensoryNode (got : Atom)          (* "Expecting SensoryNode, got ..." *)
  | StreamNotOpen                              (* "Text stream not open ..." *)
  | ExpectingSomething (cref : Atom)           (* "Expecting something to write from ..." *)
  | ExpectingStrings (got : Value)             (* "Expecting strings, got ..." *)
  | CantOpenPTY | CantUnlockPTY | CantGetPTYName | FailedToFork.

(** [Diverge] is the answer of a run that used up its fuel; [Undefined]
    is a step the C++ standard gives no meaning to (stdio on a null
    [FILE*]). *)
Inductive outcome (A : Type) : Type :=
  | Ret (a : A)
  | Throw (e : exn)
  | Diverge
  | Undefined.
Arguments Ret {A} a.
Arguments Throw {A} e.
Arguments Diverge {A}.
Arguments Undefined {A}.

Definition M (S A : Type) : Type := S -> outcome A * S.

Definition ret {S A} (a : A) : M S A := fun s => (Ret a, s).
Definition throw {S A} (e : exn) : M S A := fun s => (Throw e, s).
Definition diverge {S A} : M S A := fun s => (Diverge, s).
Definition undefined {S A} : M S A := fun s => (Undefined, s).
Definition bind {S A B} (m : M S A) (k : A -> M S B) : M S B :=
  fun s =>
    match m s with
    | (Ret a, s') => k a s'
    | (Throw e, s') => (Throw e, s')
    | (Diverge, s') => (Diverge, s')
    | (Undefined, s') => (Undefined, s')
    end.

Declare Scope monad_scope.
Delimit Scope monad_scope with monad.
Notation "x <- m ;; k" := (bind m (fun x => k))
  (at level 61, m at next level, right associativity) : monad_scope.
Notation "m ;;; k" := (bind m (fun _ => k))
  (at level 61, right associativity) : monad_scope.
Local Open Scope monad_scope.

(** [for (x : xs) body(x);] *)
Fixpoint for_each {S A} (body : A -> M S unit) (xs : list A) : M S unit :=
  match xs with
  | [] => ret tt
  | x :: xs' => body x ;;; for_each body xs'
  end.

(** States are an object paired with the world. *)
Definition get_obj {O} : M (O * World) O := fun s => (Ret (fst s), s).
Definition set_obj {O} (f : O -> O) : M (O * World) unit :=
  fun s => (Ret tt, (f (fst s), snd s)).
Definition log {O} (e : event) : M (O * World) unit :=
  fun s => (Ret tt, (fst s,
     mkWorld (trace (snd s) ++ [e]) (pulled (snd s)) (cached (snd s)))).

Definition upd {A} (f : StreamId -> A) (id : StreamId) (a : A) : StreamId -> A :=
  fun j => if Nat.eqb j id then a else f j.

(** What the stream objects are handed from outside: the C library and
    kernel, the execution engine, and the producers behind streaming
    values.  [upstream id n] is the batch that the [n]-th pull of stream
    [id] delivers. *)
Record Env : Type := mkEnv {
  fopen         : string -> FILE + Z;      (* fopen(path, "a+"): a handle, or errno *)
  is_executable : Atom -> bool;            (* cref->is_executable() *)
  execute       : Atom -> option Value;    (* cref->execute(as, silent); None is nullptr *)
  upstream      : StreamId -> nat -> list Value;
  posix_openpt  : option Z;                (* master descriptor, None when negative *)
  unlockpt      : Z -> bool;               (* true when the call returns 0 *)
  ptsname_r     : Z -> option string;      (* slave path, None on failure *)
  fork          : Z;
  freed         : string -> string         (* the bytes found in the heap buffer of a
                                              destroyed std::string that held the
                                              argument *)
}.

(** The in-place capacity of a [std::string] (libstdc++): up to this
    many characters are kept inside the object, more go to the heap. *)
Definition SSO_CAPACITY : nat := 15.

(** What a callee reads through [s.c_str()] when [s] was a temporary that
    is already destroyed, as in
    [const char* fpath = url.substr(7).c_str(); fopen(fpath, ...)].
    A short string was held in place and its bytes are still where they
    were; a longer one was held in a heap buffer that the destructor has
    released, and the callee reads what the allocator has left there. *)
Definition dangling_c_str (E : Env) (s : string) : string :=
  if Nat.leb (String.length s) SSO_CAPACITY then c_str s else c_str (freed E s).

(** Modelled from the spec: [LinkValue::value()] is declared outside the
    two source files.  A plain LinkValue hands out its elements; a
    streaming one produces a fresh batch on each pull, reflecting its own
    progression (section 4.3, drain loop), and keeps it as its current
    value. *)
Definition pull {O} (E : Env) (id : StreamId) : M (O * World) (list Value) :=
  fun s =>
    let w := snd s in
    let batch := upstream E id (pulled w id) in
    (Ret batch,
     (fst s, mkWorld (trace w ++ [EPull id])
                     (upd (pulled w) id (S (pulled w id)))
                     (upd (cached w) id batch))).

Definition value {O} (E : Env) (v : Value) : M (O * World) (list Value) :=
  match v with
  | LinkValue vals => ret vals
  | LinkStreamValue id => pull E id
  | _ => ret []
  end.

(** Modelled from the spec: [Value::size()] is declared outside the two
    source files.  It is the number of elements held; for a streaming
    value, of the batch it holds at the moment. *)
Definition size (w : World) (v : Value) : nat :=
  match v with
  | Atomic (Node _ _) => 1
  | Atomic (Link _ oset) => length oset
  | StringValue strs => length strs
  | FloatValue nums => length nums
  | LinkValue vals => length vals
  | LinkStreamValue id => length (cached w id)
  end.

(** [v->is_type(LINK_VALUE) and 0 == v->size()], the test of the drain
    loop. *)
Definition is_empty_link (w : World) (v : Value) : bool :=
  is_type v LINK_VALUE && Nat.eqb 0 (size w v).

(** The casts and accessors of prt_value. *)
Definition StringValue_value (v : Value) : list string :=
  match v with StringValue strs => strs | _ => [] end.
Definition get_name (v : Value) : string :=
  match v with Atomic (Node _ name) => name | _ => EmptyString end.
Definition getOutgoingSet (v : Value) : list Value :=
  match v with Atomic (Link _ oset) => map Atomic oset | _ => [] end.

(* ================================================================== *)
(** ** TextFileStream                                                  *)
(* ================================================================== *)

Module TextFileStream.

(** The fields of the object.  [_value] is the inherited LinkValue
    vector; the base-class constructor leaves it empty. *)
Record t : Type := mk {
  _fresh : bool;
  _fh    : option FILE;
  _uri   : string;
  _value : list Value
}.

Definition state : Type := t * World.

Definition set_fresh (b : bool) (o : t) : t := mk b (_fh o) (_uri o) (_value o).
Definition set_fh (h : option FILE) (o : t) : t := mk (_fresh o) h (_uri o) (_value o).
Definition set_uri (u : string) (o : t) : t := mk (_fresh o) (_fh o) u (_value o).
Definition set_value (v : list Value) (o : t) : t := mk (_fresh o) (_fh o) (_uri o) v.

Section WithEnv.
Variable E : Env.

(** void TextFileStream::init(const std::string& url).
    [fpath] points into the temporary [url.substr(7)], which is destroyed
    at the end of the statement that takes the pointer, before [fopen]
    reads through it. *)
Definition init (url : string) : M state unit :=
  set_obj (set_fresh true) ;;;
  set_obj (set_fh None) ;;;
  if negb (compare_eq0 8 url "file:///") then throw (UnsupportedURL url)
  else
    set_obj (set_uri url) ;;;
    (* Ignore the first 7 chars "file://" *)
    let fpath := dangling_c_str E (substr 7 url) in
    log (EFopen fpath) ;;;
    match fopen E fpath with
    | inl fh => set_obj (set_fh (Some fh))
    | inr norr => throw (UnableToOpen url norr)
    end.

(** What the base-class constructors leave before [init] runs. *)
Definition blank : t := mk false None EmptyString [].

(** TextFileStream::TextFileStream(const std::string& str): the object
    exists only when [init] did not throw. *)
Definition create (str : string) (w : World) : outcome t * World :=
  match init str (blank, w) with
  | (Ret _, (o, w')) => (Ret o, w')
  | (Throw e, (_, w')) => (Throw e, w')
  | (Diverge, (_, w')) => (Diverge, w')
  | (Undefined, (_, w')) => (Undefined, w')
  end.

(** TextFileStream::TextFileStream(const Handle& senso) *)
Definition create_from_handle (senso : Atom) (w : World) : outcome t * World :=
  if negb (Type_eqb SENSORY_NODE (get_type (Atomic senso)))
  then (Throw (ExpectingSensoryNode senso), w)
  else create (get_name (Atomic senso)) w.

(** void TextFileStream::update() const.
    [_value.resize(1); _value[0] = x] leaves exactly the one item [x]. *)
Definition update : M state unit :=
  o <- get_obj ;;
  match _fh o with
  | None => set_obj (set_value [])
  | Some fh =>
      if _fresh o then
        set_obj (set_fresh false) ;;;
        set_obj (set_value [createNode NItem (_uri o)])
      else
        log EFgets ;;;
        match fgets BUFSZ fh with
        | (None, _) =>
            log EFclose ;;;
            set_obj (set_fh None) ;;;
            set_obj (set_value [])
        | (Some buff, fh') =>
            set_obj (set_fh (Some fh')) ;;;
            set_obj (set_value [createNode NItem (c_str buff)])
        end
  end.

(** [fprintf(_fh, fmt, ...)] with the formatted bytes already built. *)
Definition fprintf (bytes : string) : M state unit :=
  o <- get_obj ;;
  match _fh o with
  | None => undefined
  | Some fh => log (EFprintf bytes) ;;; set_obj (set_fh (Some (fappend bytes fh)))
  end.

(** [fflush(_fh)] *)
Definition fflush : M state unit :=
  o <- get_obj ;;
  match _fh o with
  | None => undefined
  | Some _ => log EFflush
  end.

(** void TextFileStream::prt_value(const ValuePtr& content).
    [fuel] bounds the depth of the recursion, which the source leaves
    unbounded. *)
Fixpoint prt_value (fuel : nat) (content : Value) : M state unit :=
  match fuel with
  | O => diverge
  | S fuel' =>
      if is_type content STRING_VALUE then
        for_each (fun str => fprintf (c_str str)) (StringValue_value content)
      else if is_type content NODE then
        fprintf (String.append " " (c_str (get_name content)))
      else if is_type content LINK_VALUE then
        vals <- value E content ;;
        for_each (prt_value fuel') vals
      else
        let tc := get_type content in
        if Type_eqb LIST_LINK tc || Type_eqb SET_LINK tc then
          for_each (prt_value fuel') (getOutgoingSet content)
        else throw (ExpectingStrings content)
  end.

(** The body of the [for] loop over one batch, with its [continue] and
    its counter. *)
Fixpoint print_batch (depth : nat) (vals : list Value) (nprinted : nat)
  : M state nat :=
  match vals with
  | [] => ret nprinted
  | v :: vals' =>
      fun s =>
        if is_empty_link (snd s) v
        then print_batch depth vals' nprinted s
        else (prt_value depth v ;;; print_batch depth vals' (S nprinted)) s
  end.

(** The [while (true)] loop of write_out; [fuel] bounds the number of
    iterations. *)
Fixpoint drain (depth fuel : nat) (lvp : Value) : M state unit :=
  match fuel with
  | O => diverge
  | S fuel' =>
      vals <- value E lvp ;;
      if Nat.eqb 0 (length vals) then ret tt
      else
        nprinted <- print_batch depth vals 0 ;;
        fflush ;;;
        if Nat.eqb 0 nprinted then ret tt
        else drain depth fuel' lvp
  end.

(** ValuePtr TextFileStream::write_out(AtomSpace*, bool, const Handle& cref) *)
Definition write_out (fuel : nat) (cref : Atom) : M state Value :=
  o <- get_obj ;;
  match _fh o with
  | None => throw StreamNotOpen
  | Some _ =>
      content <-
        (if is_executable E cref then
           log (EExecute cref) ;;;
           match execute E cref with
           | None => throw (ExpectingSomething cref)
           | Some c => ret c
           end
         else ret (Atomic cref)) ;;
      if negb (is_type content LINK_STREAM_VALUE) then
        prt_value fuel content ;;;
        fflush ;;;
        ret content
      else
        drain fuel fuel content ;;;
        ret content
  end.

(** TextFileStream::~TextFileStream() *)
Definition destroy : M state unit :=
  o <- get_obj ;;
  match _fh o with
  | Some _ => log EFclose
  | None => ret tt
  end.

End WithEnv.
End TextFileStream.

(* ================================================================== *)
(** ** TerminalStream                                                  *)
(* ================================================================== *)

Module TerminalStream.

Record t : Type := mk {
  _fh        : option FILE;
  _xterm_pid : Z;
  _value     : list Value
}.

Definition state : Type := t * World.

Definition set_fh (h : option FILE) (o : t) : t := mk h (_xterm_pid o) (_value o).
Definition set_xterm_pid (p : Z) (o : t) : t := mk (_fh o) p (_value o).
Definition set_value (v : list Value) (o : t) : t := mk (_fh o) (_xterm_pid o) v.

Section WithEnv.
Variable E : Env.

(** [OutputStream::do_write_out] belongs to the base class, which is not
    among the two files; TerminalStream::write_out only guards it. *)
Variable do_write_out : nat -> Atom -> M state Value.

(** void TerminalStream::halt(void) const *)
Definition halt : M state unit :=
  o <- get_obj ;;
  (match _fh o with
   | Some _ => log EFclose
   | None => ret tt
   end) ;;;
  set_obj (set_fh None) ;;;
  (if negb (Z.eqb (_xterm_pid o) 0) then log (EKill (_xterm_pid o)) else ret tt) ;;;
  set_obj (set_xterm_pid 0) ;;;
  set_obj (set_value []).

(** void TerminalStream::init(void).  The two diagnostic printf calls to
    stdout are left out.  When [fork] answers 0 this is the child, and
    the model follows it only if [execl] came back. *)
Definition init : M state unit :=
  set_obj (set_fh None) ;;;
  log EOpenpt ;;;
  match posix_openpt E with
  | None => throw CantOpenPTY
  | Some fd =>
      log (EUnlockpt fd) ;;;
      if negb (unlockpt E fd) then throw CantUnlockPTY
      else
        log (EPtsname fd) ;;;
        match ptsname_r E fd with
        | None => throw CantGetPTYName
        | Some my_ptsname =>
            log EFork ;;;
            set_obj (set_xterm_pid (fork E)) ;;;
            if Z.eqb (-1) (fork E) then throw FailedToFork
            else
              (if Z.eqb 0 (fork E) then log (EExecl my_ptsname fd) else ret tt) ;;;
              log (EClose fd) ;;;
              log (EFopen my_ptsname) ;;;
              set_obj (set_fh (match fopen E my_ptsname with
                               | inl fh => Some fh
                               | inr _ => None
                               end))
        end
  end.

Definition blank : t := mk None 0 [].

(** TerminalStream::TerminalStream(void), and the constructor taking a
    ValueSeq, which it does not look at. *)
Definition create (w : World) : outcome t * World :=
  match init (blank, w) with
  | (Ret _, (o, w')) => (Ret o, w')
  | (Throw e, (_, w')) => (Throw e, w')
  | (Diverge, (_, w')) => (Diverge, w')
  | (Undefined, (_, w')) => (Undefined, w')
  end.

(** void TerminalStream::update() const *)
Definition update : M state unit :=
  o <- get_obj ;;
  match _fh o with
  | None => set_obj (set_value [])
  | Some fh =>
      log EFgets ;;;
      match fgets BUFSZ fh with
      | (None, _) => halt                       (* nullptr is EOF *)
      | (Some buff, fh') =>
          set_obj (set_fh (Some fh')) ;;;
          set_obj (set_value [createNode NItem (c_str buff)])
      end
  end.

(** void TerminalStream::do_write(const std::string& str) *)
Definition do_write (str : string) : M state unit :=
  o <- get_obj ;;
  match _fh o with
  | None => undefined
  | Some fh =>
      log (EFprintf (c_str str)) ;;;
      set_obj (set_fh (Some (fputs (c_str str) fh)))
  end.

(** ValuePtr TerminalStream::write_out(AtomSpace*, bool, const Handle& cref) *)
Definition write_out (fuel : nat) (cref : Atom) : M state Value :=
  o <- get_obj ;;
  match _fh o with
  | None => throw StreamNotOpen
  | Some _ => do_write_out fuel cref
  end.

(** TerminalStream::~TerminalStream() *)
Definition destroy : M state unit := halt.

End WithEnv.
End TerminalStream.

(* ================================================================== *)
(** ** Observations on states and traces                               *)
(* ================================================================== *)

(** The bytes that have gone out through the handle, if it is open. *)
Definition sink (s : TextFileStream.state) : option string :=
  option_map written (TextFileStream._fh (fst s)).

(** The system calls that [halt] issues for a handle and for a child. *)
Definition kill_events (pid : Z) : list event :=
  if Z.eqb pid 0 then [] else [EKill pid].

Definition close_events (h : option FILE) : list event :=
  match h with Some _ => [EFclose] | None => [] end.

(** How many times the evaluator has been called. *)
Fixpoint executions (tr : list event) : nat :=
  match tr with
  | [] => 0
  | EExecute _ :: tr' => S (executions tr')
  | _ :: tr' => executions tr'
  end.

(** How many batches have been pulled from stream [id]. *)
Definition pulls_of (id : StreamId) (tr : list event) : nat :=
  length (filter (fun e => match e with EPull j => Nat.eqb j id | _ => false end) tr).

(** Whatever the outcome, the state a computation ends in is related
    by [R] to the one it started from. *)
Definition respects {S : Type} (R : S -> S -> Prop) {A : Type} (m : M S A) : Prop :=
  forall s, R s (snd (m s)).

(** From one state of a file stream to a later one: the trace has only
    grown, and of the object only the contents of an open handle may
    differ. *)
Definition evolves (s s' : TextFileStream.state) : Prop :=
  (exists tl, trace (snd s') = trace (snd s) ++ tl)
  /\ TextFileStream._fresh (fst s') = TextFileStream._fresh (fst s)
  /\ TextFileStream._uri (fst s') = TextFileStream._uri (fst s)
  /\ TextFileStream._value (fst s') = TextFileStream._value (fst s)
  /\ option_map (fun _ => tt) (TextFileStream._fh (fst s'))
     = option_map (fun _ => tt) (TextFileStream._fh (fst s)).

Abbreviation keeps := (respects evolves).

(* ================================================================== *)
(** ** Life of a stream: any sequence of calls                         *)
(* ================================================================== *)

(** The calls a client can make on a file stream. *)
Inductive file_call : Type :=
  | FUpdate
  | FWriteOut (fuel : nat) (cref : Atom).

Definition file_perform (E : Env) (c : file_call) (s : TextFileStream.state)
  : TextFileStream.state :=
  match c with
  | FUpdate => snd (TextFileStream.update s)
  | FWriteOut fuel cref => snd (TextFileStream.write_out E fuel cref s)
  end.

Definition file_run (E : Env) (cs : list file_call) (s : TextFileStream.state)
  : TextFileStream.state :=
  fold_left (fun s c => file_perform E c s) cs s.

(** The calls a client can make on a terminal stream. *)
Inductive terminal_call : Type :=
  | TUpdate
  | THalt
  | TWriteOut (fuel : nat) (cref : Atom).

Definition terminal_perform (dwo : nat -> Atom -> M TerminalStream.state Value)
           (c : terminal_call) (s : TerminalStream.state) : TerminalStream.state :=
  match c with
  | TUpdate => snd (TerminalStream.update s)
  | THalt => snd (TerminalStream.halt s)
  | TWriteOut fuel cref => snd (TerminalStream.write_out dwo fuel cref s)
  end.

Definition terminal_run (dwo : nat -> Atom -> M TerminalStream.state Value)
           (cs : list terminal_call) (s : TerminalStream.state) : TerminalStream.state :=
  fold_left (fun s c => terminal_perform dwo c s) cs s.

(** Null handle implies empty value. *)
Definition file_inv (s : TextFileStream.state) : Prop :=
  TextFileStream._fh (fst s) = None -> TextFileStream._value (fst s) = [].

Definition terminal_inv (s : TerminalStream.state) : Prop :=
  TerminalStream._fh (fst s) = None -> TerminalStream._value (fst s) = [].

(* ================================================================== *)
(** ** Concrete scenarios                                              *)
(* ================================================================== *)

(** A machine with one readable file, holding two lines, an allocator
    that leaves [garbage_name] in every buffer it takes back, an engine
    that executes ExecutionOutputLinks, and three upstream producers:
    stream 0 yields empty LinkValues for ever, stream 1 yields empty
    StringValues for ever, stream 2 yields one batch of text and then
    nothing. *)
Definition two_lines : string :=
  String.append "alpha" (String NL (String.append "beta" (String NL EmptyString))).

(** Bytes that are not the name of anything asked for. *)
Definition garbage_name : string :=
  String "240"%char (String "021"%char (String "p" (String "U" EmptyString))).

Definition sample_env : Env :=
  mkEnv
    (fun path => if String.eqb path "/tmp/notes.txt" then inl (mkFILE two_lines EmptyString)
                 else if String.eqb path "/dev/pts/7" then inl (mkFILE EmptyString EmptyString)
                 else if String.eqb path garbage_name then inl (mkFILE EmptyString EmptyString)
                 else inr 2%Z)
    (fun a => match a with Link LExecutionOutput _ => true | _ => false end)
    (fun a => match a with
              | Link LExecutionOutput [Node NConcept "wrappers"] => Some (LinkStreamValue 0)
              | Link LExecutionOutput [Node NConcept "blanks"] => Some (LinkStreamValue 1)
              | Link LExecutionOutput [Node NConcept "once"] => Some (LinkStreamValue 2)
              | Link LExecutionOutput [Node NConcept "text"] => Some (StringValue ["ab"; "cd"])
              | _ => None
              end)
    (fun id n => match id with
                 | 0 => [LinkValue []; LinkValue []]
                 | 1 => [StringValue []]
                 | 2 => match n with 0 => [StringValue ["hello"]] | _ => [] end
                 | _ => []
                 end)
    (Some 5%Z)
    (fun _ => true)
    (fun _ => Some "/dev/pts/7")
    4242%Z
    (fun _ => garbage_name).

Definition quiet_world : World := mkWorld [] (fun _ => 0) (fun _ => []).

(** A terminal whose base-class write path only hands the reference back. *)
Definition echo_write_out : nat -> Atom -> M TerminalStream.state Value :=
  fun _ cref => ret (Atomic cref).

Definition closed_file : TextFileStream.t :=
  TextFileStream.mk false None "file:///tmp/notes.txt" [].
Definition open_file : TextFileStream.t :=
  TextFileStream.mk false (Some (mkFILE two_lines EmptyString)) "file:///tmp/notes.txt" [].
Definition closed_terminal : TerminalStream.t := TerminalStream.mk None 0 [].
Definition open_terminal : TerminalStream.t :=
  TerminalStream.mk (Some (mkFILE EmptyString EmptyString)) 4242 [].
Definition typing_terminal : TerminalStream.t :=
  TerminalStream.mk (Some (mkFILE (String.append "ls" (String NL "pwd")) EmptyString)) 4242 [].


(* ================================================================== *)
(** ** A pure account of the serializer                                *)
(* ================================================================== *)

(** Left to right over a sequence, stopping at the first member that is
    refused: the bytes written so far and the value refused, if any. *)
Definition render_seq {A : Type} (f : A -> string * option Value)
  : list A -> string * option Value :=
  fix go (l : list A) : string * option Value :=
    match l with
    | [] => (EmptyString, None)
    | x :: l' =>
        match f x with
        | (b, Some bad) => (b, Some bad)
        | (b, None) => let (b', e) := go l' in (String.append b b', e)
        end
    end.

Fixpoint render_atom (a : Atom) : string * option Value :=
  match a with
  | Node _ name => (String.append " " (c_str name), None)
  | Link LList oset => render_seq render_atom oset
  | Link LSet oset => render_seq render_atom oset
  | Link _ _ => (EmptyString, Some (Atomic a))
  end.

(** For a value that holds no streaming value: what [prt_value] sends to
    the handle, and the value it throws on, if any. *)
Fixpoint render (v : Value) : string * option Value :=
  match v with
  | Atomic a => render_atom a
  | StringValue strs => (concat_strings (map c_str strs), None)
  | FloatValue _ => (EmptyString, Some v)
  | LinkValue vals => render_seq render vals
  | LinkStreamValue _ => (EmptyString, None)
  end.

Definition height_seq {A : Type} (f : A -> nat) (l : list A) : nat :=
  fold_right (fun x m => Nat.max (f x) m) 0 l.

Fixpoint atom_depth (a : Atom) : nat :=
  match a with
  | Node _ _ => 1
  | Link _ oset => S (height_seq atom_depth oset)
  end.

(** The number of nested calls of [prt_value] that a value needs. *)
Fixpoint depth (v : Value) : nat :=
  match v with
  | Atomic a => atom_depth a
  | LinkValue vals => S (height_seq depth vals)
  | _ => 1
  end.

Fixpoint stream_free (v : Value) : bool :=
  match v with
  | LinkStreamValue _ => false
  | LinkValue vals => forallb stream_free vals
  | _ => true
  end.

(** The outcome that goes with the second component of [render]. *)
Definition out_of (e : option Value) : outcome unit :=
  match e with
  | None => Ret tt
  | Some bad => Throw (ExpectingStrings bad)
  end.

(* ================================================================== *)
(** ** Classes of events                                               *)
(* ================================================================== *)

(** The bytes handed to [fprintf] along a piece of trace. *)
Fixpoint printed (tr : list event) : string :=
  match tr with
  | [] => EmptyString
  | EFprintf bytes :: tr' => String.append bytes (printed tr')
  | _ :: tr' => printed tr'
  end.

(** What the serializer may do: print, and pull from upstream. *)
Definition serializer_event (e : event) : bool :=
  match e with
  | EFprintf _ | EPull _ => true
  | _ => false
  end.

(** What the drain loop may do: the same, and flush. *)
Definition drain_event (e : event) : bool :=
  match e with
  | EFprintf _ | EPull _ | EFflush => true
  | _ => false
  end.

Definition count_events (P : event -> bool) (tr : list event) : nat :=
  length (filter P tr).

Definition is_fclose (e : event) : bool :=
  match e with EFclose => true | _ => false end.
Definition is_kill (e : event) : bool :=
  match e with EKill _ => true | _ => false end.
Definition is_fgets (e : event) : bool :=
  match e with EFgets => true | _ => false end.
Definition is_close_fd (e : event) : bool :=
  match e with EClose _ => true | _ => false end.

(** From one state of a file stream to a later one: the trace has grown
    by events of class [P] only, the handle is open or null as before and
    has taken exactly the bytes printed, and the rest of the object is as
    it was. *)
Definition adds_only (P : event -> bool) (s s' : TextFileStream.state) : Prop :=
  exists tl,
    trace (snd s') = trace (snd s) ++ tl
    /\ forallb P tl = true
    /\ TextFileStream._fh (fst s')
       = option_map (fappend (printed tl)) (TextFileStream._fh (fst s))
    /\ TextFileStream._fresh (fst s') = TextFileStream._fresh (fst s)
    /\ TextFileStream._uri (fst s') = TextFileStream._uri (fst s)
    /\ TextFileStream._value (fst s') = TextFileStream._value (fst s).

(** Whether [write_out] gets as far as calling the evaluator. *)
Definition evaluates (E : Env) (cref : Atom) (s : TextFileStream.state) : bool :=
  match TextFileStream._fh (fst s) with
  | Some _ => is_executable E cref
  | None => false
  end.

(** Streams of text: batches made of StringValues only. *)
Definition is_text (v : Value) : bool :=
  match v with StringValue _ => true | _ => false end.

Definition texts_of (batch : list Value) : string :=
  concat_strings (map (fun v => concat_strings (map c_str (StringValue_value v))) batch).

Definition text_events (batch : list Value) : list event :=
  flat_map (fun v => map (fun str => EFprintf (c_str str)) (StringValue_value v)) batch.

(** The text of the [k] batches of stream [id] from batch [start] on. *)
Fixpoint stream_text (E : Env) (id : StreamId) (start k : nat) : string :=
  match k with
  | O => EmptyString
  | S k' => String.append (texts_of (upstream E id start)) (stream_text E id (S start) k')
  end.

(** The names of the items that successive [update] calls of a file
    stream deliver, up to the first call that delivers nothing. *)
Fixpoint read_all (n : nat) (s : TextFileStream.state) : list string :=
  match n with
  | O => []
  | S n' =>
      let s' := snd (TextFileStream.update s) in
      match TextFileStream._value (fst s') with
      | [Atomic (Node _ name)] => name :: read_all n' s'
      | _ => []
      end
  end.

(** A line handed out ends at its first newline: no newline before the
    last character. *)
Fixpoint newline_free (s : string) : bool :=
  match s with
  | EmptyString => true
  | String c s' => negb (Ascii.eqb c NL) && newline_free s'
  end.

(** What is still owed to the operating system: one [fclose] for an
    open handle, one [kill] for a tracked child. *)
Definition pending_close (h : option FILE) : nat :=
  match h with Some _ => 1 | None => 0 end.
Definition pending_kill (pid : Z) : nat :=
  if Z.eqb pid 0 then 0 else 1.

(** What a base-class writer must leave alone for the accounting of
    [fclose] and [kill] to go through it. *)
Definition quiet_writer (dwo : nat -> Atom -> M TerminalStream.state Value) : Prop :=
  forall fuel cref s,
    let s' := snd (dwo fuel cref s) in
    pending_close (TerminalStream._fh (fst s')) = pending_close (TerminalStream._fh (fst s))
    /\ TerminalStream._xterm_pid (fst s') = TerminalStream._xterm_pid (fst s)
    /\ count_events is_fclose (trace (snd s')) = count_events is_fclose (trace (snd s))
    /\ count_events is_kill (trace (snd s')) = count_events is_kill (trace (snd s)).

Definition is_write_call (c : file_call) : bool :=
  match c with FWriteOut _ _ => true | FUpdate => false end.

Definition is_fflush (e : event) : bool :=
  match e with EFflush => true | _ => false end.

(** The value that [write_out] goes on to write for [cref], when there
    is one: the reference itself, or what it evaluates to. *)
Definition content_of (E : Env) (cref : Atom) : option Value :=
  if is_executable E cref then execute E cref else Some (Atomic cref).

(** The state in which [write_out] starts to print: the one it was
    called in, with the evaluation logged when the reference is
    executable. *)
Definition printing_state (E : Env) (cref : Atom) (s : TextFileStream.state)
  : TextFileStream.state :=
  if is_executable E cref
  then (fst s, mkWorld (trace (snd s) ++ [EExecute cref]) (pulled (snd s)) (cached (snd s)))
  else s.

(** A state after one more [fflush]. *)
Definition flushed (s : TextFileStream.state) : TextFileStream.state :=
  (fst s, mkWorld (trace (snd s) ++ [EFflush]) (pulled (snd s)) (cached (snd s))).

(* ================================================================== *)
(** ** Facts about strings                                             *)
(* ================================================================== *)

Lemma c_str_no_nul (s : string) : no_nul s = true -> c_str s = s.
Proof.
  induction s as [|c s IH]; simpl; intro H; [reflexivity|].
  apply andb_true_iff in H. destruct H as [Hc Hs].
  apply negb_true_iff in Hc. rewrite Hc, (IH Hs). reflexivity.
Qed.

Lemma map_c_str_no_nul (l : list string) :
  forallb no_nul l = true -> map c_str l = l.
Proof.
  induction l as [|s l IH]; simpl; intro H; [reflexivity|].
  apply andb_true_iff in H. destruct H as [Hs Hl].
  rewrite (c_str_no_nul _ Hs), (IH Hl). reflexivity.
Qed.

Lemma append_empty_r (s : string) : String.append s EmptyString = s.
Proof. induction s as [|c s IH]; simpl; [|rewrite IH]; reflexivity. Qed.

Lemma append_assoc (a b c : string) :
  String.append (String.append a b) c = String.append a (String.append b c).
Proof. induction a as [|x a IH]; simpl; [|rewrite IH]; reflexivity. Qed.

Lemma fappend_empty (fh : FILE) : fappend EmptyString fh = fh.
Proof. reflexivity. Qed.

Lemma fappend_append (a b : string) (fh : FILE) :
  fappend (String.append a b) fh = fappend b (fappend a fh).
Proof.
  destruct a as [|c a]; [reflexivity|].
  destruct b as [|d b].
  - cbn [fappend String.append]. rewrite append_empty_r. reflexivity.
  - cbn [fappend String.append written]. f_equal.
    change (String c (String.append a (String d b)))
      with (String.append (String c a) (String d b)).
    symmetry. apply append_assoc.
Qed.

Lemma written_fappend (bytes : string) (fh : FILE) :
  written (fappend bytes fh) = String.append (written fh) bytes.
Proof.
  destruct bytes; cbn [fappend written]; [rewrite append_empty_r|]; reflexivity.
Qed.

(** After a write that produced bytes nothing is left to read. *)
Lemma unread_fappend (bytes : string) (fh : FILE) :
  unread (fappend bytes fh)
  = match bytes with EmptyString => unread fh | String _ _ => EmptyString end.
Proof. destruct bytes; reflexivity. Qed.

(** The test of [init] accepts exactly the strings that start with the
    eight characters [file:///]. *)
Lemma compare_eq0_prefix (url : string) :
  compare_eq0 8 url "file:///" = String.prefix "file:///" url.
Proof.
  unfold compare_eq0. apply eq_true_iff_eq.
  rewrite String.eqb_eq. symmetry. apply (prefix_correct "file:///" url).
Qed.

Lemma prefix_append (p s : string) : String.prefix p (String.append p s) = true.
Proof.
  induction p as [|c p IH]; simpl.
  - destruct s; reflexivity.
  - destruct (ascii_dec c c) as [_|Hne]; [exact IH | congruence].
Qed.

Lemma prefix_form (p url : string) :
  String.prefix p url = true -> exists rest, url = String.append p rest.
Proof.
  revert url. induction p as [|c p IH]; intros url H.
  - exists url. reflexivity.
  - destruct url as [|d url]; simpl in H; [discriminate|].
    destruct (ascii_dec c d) as [<-|]; [|discriminate].
    destruct (IH _ H) as [rest ->]. exists rest. reflexivity.
Qed.

(** The URLs that pass the test of [init] are those of the form
    [file:///] followed by anything. *)
Lemma accepted_form (url : string) :
  compare_eq0 8 url "file:///" = true
  <-> exists rest, url = String.append "file:///" rest.
Proof.
  rewrite compare_eq0_prefix. split.
  - apply prefix_form.
  - intros [rest ->]. apply prefix_append.
Qed.

(* ================================================================== *)
(** ** URI handling of TextFileStream::init                            *)
(* ================================================================== *)

Lemma dangling_short (E : Env) (s : string) :
  String.length s <= SSO_CAPACITY -> dangling_c_str E s = c_str s.
Proof.
  intro H. unfold dangling_c_str. apply Nat.leb_le in H. rewrite H. reflexivity.
Qed.

Lemma dangling_long (E : Env) (s : string) :
  SSO_CAPACITY < String.length s -> dangling_c_str E s = c_str (freed E s).
Proof.
  intro H. unfold dangling_c_str. apply Nat.leb_gt in H. rewrite H. reflexivity.
Qed.

(** Construction by cases: on the prefix of the URL and on the answer of
    [fopen]. *)
Lemma create_cases (E : Env) (url : string) (w : World) :
  TextFileStream.create E url w
  = if String.prefix "file:///" url
    then match fopen E (dangling_c_str E (substr 7 url)) with
         | inl fh =>
             (Ret (TextFileStream.mk true (Some fh) url []),
              mkWorld (trace w ++ [EFopen (dangling_c_str E (substr 7 url))])
                      (pulled w) (cached w))
         | inr norr =>
             (Throw (UnableToOpen url norr),
              mkWorld (trace w ++ [EFopen (dangling_c_str E (substr 7 url))])
                      (pulled w) (cached w))
         end
    else (Throw (UnsupportedURL url), w).
Proof.
  unfold TextFileStream.create, TextFileStream.init, bind, set_obj, throw, log.
  cbn [fst snd]. rewrite compare_eq0_prefix.
  destruct (String.prefix "file:///" url); [|reflexivity].
  cbn [negb fst snd]. destruct (fopen E (dangling_c_str E (substr 7 url))); reflexivity.
Qed.

Lemma create_trace (E : Env) (p : string) (w : World) :
  trace (snd (TextFileStream.create E (String.append "file:///" p) w))
  = trace w ++ [EFopen (dangling_c_str E (String "/" p))].
Proof.
  rewrite create_cases, prefix_append.
  change (substr 7 (String.append "file:///" p)) with (String "/" p).
  destruct (fopen E (dangling_c_str E (String "/" p))); reflexivity.
Qed.

(** C7.  A URI that does not start with the eight characters [file:///]
    (for instance [file://host/path] or [file:/path]) makes construction
    throw the unsupported-URL exception with the world exactly as it was,
    so before any [fopen].  For an accepted URI [file:///p] the code means
    to open what follows the seven characters [file://], that is [/p], but
    reads the path through a pointer into a string already destroyed.
    [fopen] gets [/p] only when [/p] has at most 15 characters; when it
    has more, [fopen] gets the bytes that are found in the released
    buffer, as for [file:///tmp/sensory-notes.txt]. *)
Theorem accepted_uri_path_read_after_free (E : Env) (w : World) :
  (forall url, String.prefix "file:///" url = false ->
     TextFileStream.create E url w = (Throw (UnsupportedURL url), w))
  /\ TextFileStream.create E "file://host/path" w
       = (Throw (UnsupportedURL "file://host/path"), w)
  /\ TextFileStream.create E "file:/path" w
       = (Throw (UnsupportedURL "file:/path"), w)
  /\ (forall p,
        trace (snd (TextFileStream.create E (String.append "file:///" p) w))
        = trace w ++ [EFopen (dangling_c_str E (String "/" p))])
  /\ (forall p,
        String.length p < 15 ->
        trace (snd (TextFileStream.create E (String.append "file:///" p) w))
        = trace w ++ [EFopen (c_str (String "/" p))])
  /\ (forall p,
        15 <= String.length p ->
        trace (snd (TextFileStream.create E (String.append "file:///" p) w))
        = trace w ++ [EFopen (c_str (freed E (String "/" p)))])
  /\ trace (snd (TextFileStream.create E "file:///tmp/sensory-notes.txt" w))
     = trace w ++ [EFopen (c_str (freed E "/tmp/sensory-notes.txt"))].
Proof.
  assert (Hrej : forall url, String.prefix "file:///" url = false ->
     TextFileStream.create E url w = (Throw (UnsupportedURL url), w)).
  { intros url H. rewrite create_cases, H. reflexivity. }
  split; [exact Hrej|].
  split; [apply Hrej; reflexivity|].
  split; [apply Hrej; reflexivity|].
  split; [intro p; apply create_trace|].
  split; [|split].
  - intros p Hp. rewrite create_trace, dangling_short; [reflexivity|].
    unfold SSO_CAPACITY. cbn [String.length]. lia.
  - intros p Hp. rewrite create_trace, dangling_long; [reflexivity|].
    unfold SSO_CAPACITY. cbn [String.length]. lia.
  - change "file:///tmp/sensory-notes.txt"
      with (String.append "file:///" "tmp/sensory-notes.txt").
    rewrite create_trace. reflexivity.
Qed.

Lemma accepted_uri_path_read_after_free_witness :
  String.prefix "file:///" "http://example.org/x" = false
  /\ TextFileStream.create sample_env "http://example.org/x" quiet_world
       = (Throw (UnsupportedURL "http://example.org/x"), quiet_world)
  /\ trace (snd (TextFileStream.create sample_env "file:///tmp/notes.txt" quiet_world))
       = [EFopen "/tmp/notes.txt"]
  /\ TextFileStream.create sample_env "file:///tmp/sensory-notes.txt" quiet_world
       = (Ret (TextFileStream.mk true (Some (mkFILE EmptyString EmptyString))
                                 "file:///tmp/sensory-notes.txt" []),
          mkWorld [EFopen garbage_name] (fun _ => 0) (fun _ => []))
  /\ trace (snd (TextFileStream.create sample_env "file:///tmp/sensory-notes.txt"
                   quiet_world))
       <> [EFopen "/tmp/sensory-notes.txt"].
Proof.
  destruct (accepted_uri_path_read_after_free sample_env quiet_world)
    as (Hrej & _ & _ & _ & Hshort & _ & Hbug).
  split; [reflexivity|]. split; [apply Hrej; reflexivity|].
  split; [apply (Hshort "tmp/notes.txt"); cbn; lia|].
  split; [reflexivity|].
  rewrite Hbug. discriminate.
Defined.

(* ================================================================== *)
(** ** Writing to a closed stream                                      *)
(* ================================================================== *)

Lemma file_write_out_closed (E : Env) (fuel : nat) (cref : Atom)
      (s : TextFileStream.state) :
  TextFileStream._fh (fst s) = None ->
  TextFileStream.write_out E fuel cref s = (Throw StreamNotOpen, s).
Proof.
  intro H. unfold TextFileStream.write_out, bind, get_obj. rewrite H. reflexivity.
Qed.

Lemma terminal_write_out_closed
      (do_write_out : nat -> Atom -> M TerminalStream.state Value)
      (fuel : nat) (cref : Atom) (s : TerminalStream.state) :
  TerminalStream._fh (fst s) = None ->
  TerminalStream.write_out do_write_out fuel cref s = (Throw StreamNotOpen, s).
Proof.
  intro H. unfold TerminalStream.write_out, bind, get_obj. rewrite H. reflexivity.
Qed.

(** C4.  On a stream whose handle is null, [write_out] throws the
    stream-not-open exception whatever the content reference and whatever
    the fuel, for the file stream and for the terminal stream, and leaves
    the state as it was. *)
Theorem write_after_close_fails :
  (forall (E : Env) (fuel : nat) (cref : Atom) (s : TextFileStream.state),
      TextFileStream._fh (fst s) = None ->
      TextFileStream.write_out E fuel cref s = (Throw StreamNotOpen, s))
  /\
  (forall (do_write_out : nat -> Atom -> M TerminalStream.state Value)
          (fuel : nat) (cref : Atom) (s : TerminalStream.state),
      TerminalStream._fh (fst s) = None ->
      TerminalStream.write_out do_write_out fuel cref s = (Throw StreamNotOpen, s)).
Proof.
  split.
  - intros E fuel cref s H. apply file_write_out_closed, H.
  - intros dwo fuel cref s H. apply terminal_write_out_closed, H.
Qed.

Lemma write_after_close_fails_witness :
  TextFileStream.write_out sample_env 3
      (Link LExecutionOutput [Node NConcept "text"]) (closed_file, quiet_world)
    = (Throw StreamNotOpen, (closed_file, quiet_world))
  /\ TerminalStream.write_out echo_write_out 3
      (Node NItem "ls") (closed_terminal, quiet_world)
    = (Throw StreamNotOpen, (closed_terminal, quiet_world)).
Proof.
  split.
  - apply (proj1 write_after_close_fails). reflexivity.
  - apply (proj2 write_after_close_fails). reflexivity.
Defined.

Lemma executions_app (a b : list event) :
  executions (a ++ b) = executions a + executions b.
Proof.
  induction a as [|e a IH]; simpl; [reflexivity|].
  destruct e; simpl; rewrite IH; reflexivity.
Qed.

(** C9.  With the handle null and an executable content reference,
    [write_out] throws stream-not-open with the trace untouched: no
    [EExecute] is added, the evaluator is not called.  The terminal stream
    does not reach the base-class writer at all: whatever that writer
    would do, the state comes back unchanged.  (On an open file stream the
    same reference is evaluated first thing.) *)
Theorem closed_stream_never_evaluates :
  (forall (E : Env) (fuel : nat) (cref : Atom) (s : TextFileStream.state),
      TextFileStream._fh (fst s) = None ->
      is_executable E cref = true ->
      let r := TextFileStream.write_out E fuel cref s in
      fst r = Throw StreamNotOpen
      /\ trace (snd (snd r)) = trace (snd s)
      /\ executions (trace (snd (snd r))) = executions (trace (snd s)))
  /\
  (forall (do_write_out : nat -> Atom -> M TerminalStream.state Value)
          (fuel : nat) (cref : Atom) (s : TerminalStream.state),
      TerminalStream._fh (fst s) = None ->
      let r := TerminalStream.write_out do_write_out fuel cref s in
      fst r = Throw StreamNotOpen /\ snd r = s)
  /\
  (forall (E : Env) (fuel : nat) (cref : Atom) (s : TextFileStream.state) fh,
      TextFileStream._fh (fst s) = Some fh ->
      is_executable E cref = true ->
      execute E cref = None ->
      TextFileStream.write_out E fuel cref s
        = (Throw (ExpectingSomething cref),
           (fst s, mkWorld (trace (snd s) ++ [EExecute cref])
                           (pulled (snd s)) (cached (snd s))))).
Proof.
  split; [|split].
  - intros E fuel cref s H _ r. subst r.
    rewrite (file_write_out_closed E fuel cref s H).
    repeat split.
  - intros dwo fuel cref s H r. subst r.
    rewrite (terminal_write_out_closed dwo fuel cref s H).
    split; reflexivity.
  - intros E fuel cref s fh H Hx Hn.
    unfold TextFileStream.write_out, bind, get_obj, log, throw.
    rewrite H, Hx. cbn [fst snd]. rewrite Hn. reflexivity.
Qed.

Lemma closed_stream_never_evaluates_witness :
  let cref := Link LExecutionOutput [Node NConcept "text"] in
  is_executable sample_env cref = true
  /\ fst (TextFileStream.write_out sample_env 3 cref (closed_file, quiet_world))
       = Throw StreamNotOpen
  /\ snd (TerminalStream.write_out echo_write_out 3 cref (closed_terminal, quiet_world))
       = (closed_terminal, quiet_world)
  /\ fst (TextFileStream.write_out sample_env 3
            (Link LExecutionOutput []) (open_file, quiet_world))
       = Throw (ExpectingSomething (Link LExecutionOutput [])).
Proof.
  intro cref.
  destruct closed_stream_never_evaluates as (Hfile & Hterm & Hopen).
  split; [reflexivity|]. split; [|split].
  - apply (Hfile sample_env 3 cref (closed_file, quiet_world)); reflexivity.
  - apply (Hterm echo_write_out 3 cref (closed_terminal, quiet_world)); reflexivity.
  - rewrite (Hopen sample_env 3 (Link LExecutionOutput []) (open_file, quiet_world)
               (mkFILE two_lines EmptyString)); reflexivity.
Defined.

(* ================================================================== *)
(** ** Teardown of the terminal stream                                 *)
(* ================================================================== *)

(** What [halt] does, in one equation. *)
Lemma halt_spec (o : TerminalStream.t) (w : World) :
  TerminalStream.halt (o, w)
  = (Ret tt,
     (TerminalStream.mk None 0 [],
      mkWorld ((trace w ++ close_events (TerminalStream._fh o))
                 ++ kill_events (TerminalStream._xterm_pid o))
              (pulled w) (cached w))).
Proof.
  destruct o as [h pid v]. destruct w as [tr pl ca].
  unfold TerminalStream.halt, bind, get_obj, set_obj, log, ret.
  unfold kill_events, close_events. cbn [fst snd TerminalStream._fh TerminalStream._xterm_pid].
  destruct h; destruct (Z.eqb pid 0); cbn; rewrite ?app_nil_r; reflexivity.
Qed.

(** C8.  [halt] never fails, leaves the handle null, no child tracked and
    the value empty; a second [halt] (explicit, or the destructor's) never
    fails either, issues no further system call and returns the very same
    state. *)
Theorem halt_idempotent (s : TerminalStream.state) :
  let s1 := snd (TerminalStream.halt s) in
  fst (TerminalStream.halt s) = Ret tt
  /\ fst s1 = TerminalStream.mk None 0 []
  /\ TerminalStream.halt s1 = (Ret tt, s1)
  /\ TerminalStream.destroy s1 = (Ret tt, s1).
Proof.
  destruct s as [o w]. cbn zeta. rewrite halt_spec. cbn [fst snd].
  split; [reflexivity|]. split; [reflexivity|].
  unfold TerminalStream.destroy. rewrite halt_spec.
  cbn [TerminalStream._fh TerminalStream._xterm_pid close_events trace pulled cached].
  unfold kill_events. cbn. rewrite !app_nil_r. split; reflexivity.
Qed.

(** C5.  [update] of a terminal stream has no first call that answers
    without reading: with the handle null it only clears the value, and
    with the handle open it always calls [fgets].  When [fgets] returns the
    null pointer the call is exactly [halt] (after the read): handle closed
    and nulled, the child killed if one is tracked and its id zeroed, the
    value cleared.  Otherwise the value is the one line read. *)
Theorem terminal_update_reads_or_halts (o : TerminalStream.t) (w : World) :
  let logged := mkWorld (trace w ++ [EFgets]) (pulled w) (cached w) in
  match TerminalStream._fh o with
  | None =>
      TerminalStream.update (o, w)
      = (Ret tt, (TerminalStream.mk None (TerminalStream._xterm_pid o) [], w))
  | Some fh =>
      match fgets BUFSZ fh with
      | (None, _) =>
          TerminalStream.update (o, w) = TerminalStream.halt (o, logged)
          /\ TerminalStream.update (o, w)
             = (Ret tt,
                (TerminalStream.mk None 0 [],
                 mkWorld (trace w ++ [EFgets; EFclose]
                            ++ kill_events (TerminalStream._xterm_pid o))
                         (pulled w) (cached w)))
      | (Some buff, fh') =>
          TerminalStream.update (o, w)
          = (Ret tt,
             (TerminalStream.mk (Some fh') (TerminalStream._xterm_pid o)
                                [createNode NItem (c_str buff)],
              logged))
      end
  end.
Proof.
  intro logged. destruct (TerminalStream._fh o) as [fh|] eqn:H.
  2:{ destruct o as [h pid v]. cbn in H. subst h. reflexivity. }
  assert (Hstep : TerminalStream.update (o, w)
                  = match fgets BUFSZ fh with
                    | (None, _) => TerminalStream.halt (o, logged)
                    | (Some buff, fh') =>
                        (Ret tt,
                         (TerminalStream.mk (Some fh') (TerminalStream._xterm_pid o)
                                            [createNode NItem (c_str buff)],
                          logged))
                    end).
  { unfold TerminalStream.update, bind, get_obj, log. cbn [fst snd].
    rewrite H. destruct (fgets BUFSZ fh) as [[buff|] fh']; reflexivity. }
  rewrite Hstep. destruct (fgets BUFSZ fh) as [[buff|] fh']; [reflexivity|].
  split; [reflexivity|].
  rewrite halt_spec. rewrite H. subst logged.
  cbn [trace pulled cached close_events]. rewrite <- !app_assoc. reflexivity.
Qed.

Lemma terminal_update_reads_or_halts_witness :
  TerminalStream.update (open_terminal, quiet_world)
  = (Ret tt, (closed_terminal, mkWorld [EFgets; EFclose; EKill 4242]
                                        (fun _ => 0) (fun _ => [])))
  /\ TerminalStream.update (typing_terminal, quiet_world)
  = (Ret tt,
     (TerminalStream.mk (Some (mkFILE "pwd" EmptyString)) 4242
                        [Atomic (Node NItem (String.append "ls" (String NL EmptyString)))],
      mkWorld [EFgets] (fun _ => 0) (fun _ => []))).
Proof.
  split.
  - exact (proj2 (terminal_update_reads_or_halts open_terminal quiet_world)).
  - exact (terminal_update_reads_or_halts typing_terminal quiet_world).
Defined.

(* ================================================================== *)
(** ** The serializer                                                  *)
(* ================================================================== *)

Lemma fprintf_open fr fh uri v tr pl ca (bytes : string) :
  TextFileStream.fprintf bytes (TextFileStream.mk fr (Some fh) uri v, mkWorld tr pl ca)
  = (Ret tt,
     (TextFileStream.mk fr (Some (fappend bytes fh)) uri v,
      mkWorld (tr ++ [EFprintf bytes]) pl ca)).
Proof. reflexivity. Qed.

Lemma for_each_fprintf (strs : list string) :
  forall fr fh uri v tr pl ca,
    for_each (fun str => TextFileStream.fprintf (c_str str)) strs
             (TextFileStream.mk fr (Some fh) uri v, mkWorld tr pl ca)
    = (Ret tt,
       (TextFileStream.mk fr
          (Some (fappend (concat_strings (map c_str strs)) fh))
          uri v,
        mkWorld (tr ++ map (fun str => EFprintf (c_str str)) strs) pl ca)).
Proof.
  induction strs as [|str strs IH]; intros fr fh uri v tr pl ca.
  - cbn. rewrite app_nil_r. reflexivity.
  - cbn [for_each]. unfold bind at 1. rewrite fprintf_open.
    rewrite IH. cbn [map concat_strings fold_right].
    rewrite fappend_append, <- app_assoc. reflexivity.
Qed.

Lemma prt_value_strings (E : Env) (fuel : nat) (strs : list string)
      (s : TextFileStream.state) (fh : FILE) :
  TextFileStream._fh (fst s) = Some fh ->
  fst (TextFileStream.prt_value E (S fuel) (StringValue strs) s) = Ret tt
  /\ sink (snd (TextFileStream.prt_value E (S fuel) (StringValue strs) s))
     = Some (String.append (written fh) (concat_strings (map c_str strs))).
Proof.
  destruct s as [[fr h uri v] [tr pl ca]]. cbn [fst TextFileStream._fh].
  intros ->. cbn [TextFileStream.prt_value is_type get_type isA Type_eqb orb
                  StringValue_value].
  rewrite for_each_fprintf. split; [reflexivity|].
  unfold sink. cbn [fst snd TextFileStream._fh option_map].
  rewrite written_fappend. reflexivity.
Qed.

Lemma prt_value_node (E : Env) (fuel : nat) (t : NodeType) (name : string)
      (s : TextFileStream.state) (fh : FILE) :
  TextFileStream._fh (fst s) = Some fh ->
  fst (TextFileStream.prt_value E (S fuel) (Atomic (Node t name)) s) = Ret tt
  /\ sink (snd (TextFileStream.prt_value E (S fuel) (Atomic (Node t name)) s))
     = Some (String.append (written fh) (String.append " " (c_str name))).
Proof.
  destruct s as [[fr h uri v] [tr pl ca]]. cbn [fst TextFileStream._fh].
  intros ->. destruct t; split; reflexivity.
Qed.

(** C6.  Printing a StringValue appends to the sink the characters of
    each element, in order and with nothing between them; printing a Node
    appends one space and then the node's name.  The characters of an
    element are what [%s] takes from [c_str()]: all of them when the
    element holds no NUL.  So ["ab"; "cd"] gives [abcd] and the node [foo]
    gives [ foo]. *)
Theorem serializer_text_and_node
        (E : Env) (fuel : nat) (s : TextFileStream.state) (fh : FILE) :
  TextFileStream._fh (fst s) = Some fh ->
  (forall strs,
      let r := TextFileStream.prt_value E (S fuel) (StringValue strs) s in
      fst r = Ret tt
      /\ sink (snd r)
         = Some (String.append (written fh) (concat_strings (map c_str strs)))
      /\ (forallb no_nul strs = true ->
          sink (snd r) = Some (String.append (written fh) (concat_strings strs))))
  /\ (forall t name,
      let r := TextFileStream.prt_value E (S fuel) (Atomic (Node t name)) s in
      fst r = Ret tt
      /\ sink (snd r)
         = Some (String.append (written fh) (String.append " " (c_str name)))
      /\ (no_nul name = true ->
          sink (snd r) = Some (String.append (written fh) (String.append " " name))))
  /\ (written fh = EmptyString ->
      sink (snd (TextFileStream.prt_value E (S fuel) (StringValue ["ab"; "cd"]) s))
        = Some "abcd"
      /\ sink (snd (TextFileStream.prt_value E (S fuel) (Atomic (Node NItem "foo")) s))
        = Some " foo").
Proof.
  intro H. split; [|split].
  - intros strs r. subst r.
    destruct (prt_value_strings E fuel strs s H) as [Hr Hs].
    split; [exact Hr|]. split; [exact Hs|].
    intro Hn. rewrite Hs, (map_c_str_no_nul _ Hn). reflexivity.
  - intros t name r. subst r.
    destruct (prt_value_node E fuel t name s H) as [Hr Hs].
    split; [exact Hr|]. split; [exact Hs|].
    intro Hn. rewrite Hs, (c_str_no_nul _ Hn). reflexivity.
  - intro Hw. split.
    + rewrite (proj2 (prt_value_strings E fuel ["ab"; "cd"] s H)), Hw. reflexivity.
    + rewrite (proj2 (prt_value_node E fuel NItem "foo" s H)), Hw. reflexivity.
Qed.

Lemma serializer_text_and_node_witness :
  TextFileStream._fh (fst (open_file, quiet_world)) = Some (mkFILE two_lines EmptyString)
  /\ forallb no_nul ["ab"; "cd"] = true
  /\ no_nul "foo" = true
  /\ sink (snd (TextFileStream.prt_value sample_env 1 (StringValue ["ab"; "cd"])
               (open_file, quiet_world))) = Some "abcd"
  /\ sink (snd (TextFileStream.prt_value sample_env 1 (Atomic (Node NItem "foo"))
               (open_file, quiet_world))) = Some " foo".
Proof.
  destruct (@serializer_text_and_node sample_env 0 (open_file, quiet_world)
              (mkFILE two_lines EmptyString) eq_refl)
    as (Hstrs & Hnode & _).
  split; [reflexivity|]. split; [reflexivity|]. split; [reflexivity|]. split.
  - exact (proj2 (proj2 (Hstrs ["ab"; "cd"])) eq_refl).
  - exact (proj2 (proj2 (Hnode NItem "foo")) eq_refl).
Defined.

(* ================================================================== *)
(** ** The read side of the file stream                                *)
(* ================================================================== *)

(** A constructed file stream is fresh, open, remembers its URI and
    holds no value. *)
Lemma create_ret (E : Env) (url : string) (w w1 : World) (o : TextFileStream.t) :
  TextFileStream.create E url w = (Ret o, w1) ->
  exists fh,
    o = TextFileStream.mk true (Some fh) url []
    /\ fopen E (dangling_c_str E (substr 7 url)) = inl fh
    /\ w1 = mkWorld (trace w ++ [EFopen (dangling_c_str E (substr 7 url))])
                    (pulled w) (cached w).
Proof.
  rewrite create_cases.
  destruct (String.prefix "file:///" url); [|discriminate].
  destruct (fopen E (dangling_c_str E (substr 7 url))) as [fh|norr]; [|discriminate].
  intro H. injection H as <- <-. exists fh. repeat split.
Qed.

(** Construction from a SensoryNode is construction from its name; any
    other atom is refused. *)
Lemma create_from_handle_sensory (E : Env) (url : string) (w : World) :
  TextFileStream.create_from_handle E (Node NSensory url) w
  = TextFileStream.create E url w.
Proof. reflexivity. Qed.

Lemma file_update_closed (o : TextFileStream.t) (w : World) :
  TextFileStream._fh o = None ->
  TextFileStream.update (o, w) = (Ret tt, (TextFileStream.set_value [] o, w)).
Proof.
  intro H. unfold TextFileStream.update, bind, get_obj. cbn [fst snd].
  rewrite H. reflexivity.
Qed.

Lemma file_update_fresh (fh : FILE) (uri : string) (v : list Value) (w : World) :
  TextFileStream.update (TextFileStream.mk true (Some fh) uri v, w)
  = (Ret tt, (TextFileStream.mk false (Some fh) uri [createNode NItem uri], w)).
Proof. reflexivity. Qed.

Lemma file_update_read (fh : FILE) (uri : string) (v : list Value) (w : World) :
  TextFileStream.update (TextFileStream.mk false (Some fh) uri v, w)
  = (Ret tt,
     match fgets BUFSZ fh with
     | (None, _) =>
         (TextFileStream.mk false None uri [],
          mkWorld (trace w ++ [EFgets; EFclose]) (pulled w) (cached w))
     | (Some buff, fh') =>
         (TextFileStream.mk false (Some fh') uri [createNode NItem (c_str buff)],
          mkWorld (trace w ++ [EFgets]) (pulled w) (cached w))
     end).
Proof.
  unfold TextFileStream.update, bind, get_obj, set_obj, log.
  cbn [fst snd TextFileStream._fh TextFileStream._fresh].
  destruct (fgets BUFSZ fh) as [[buff|] fh']; cbn [fst snd trace pulled cached].
  - reflexivity.
  - rewrite <- app_assoc. reflexivity.
Qed.

(** C2.  After a successful construction from [url], the first [update]
    returns with the single item [ItemNode url] as value and with the
    world and the handle exactly as they were: nothing was read.  The
    second [update] calls [fgets] on the handle: its value is the line
    read, or, at end of file, the stream closes. *)
Theorem freshness_consumed_once
        (E : Env) (url : string) (w w1 : World) (o : TextFileStream.t) :
  TextFileStream.create E url w = (Ret o, w1) ->
  let r1 := TextFileStream.update (o, w1) in
  let r2 := TextFileStream.update (snd r1) in
  exists fh,
    TextFileStream._fh o = Some fh
    /\ r1 = (Ret tt,
             (TextFileStream.mk false (Some fh) url [createNode NItem url], w1))
    /\ fst r2 = Ret tt
    /\ snd r2
       = match fgets BUFSZ fh with
         | (None, _) =>
             (TextFileStream.mk false None url [],
              mkWorld (trace w1 ++ [EFgets; EFclose]) (pulled w1) (cached w1))
         | (Some buff, fh') =>
             (TextFileStream.mk false (Some fh') url [createNode NItem (c_str buff)],
              mkWorld (trace w1 ++ [EFgets]) (pulled w1) (cached w1))
         end.
Proof.
  intros Hc r1 r2. destruct (create_ret _ _ _ Hc) as (fh & -> & _ & _).
  exists fh. subst r2 r1. rewrite file_update_fresh. cbn [snd].
  rewrite file_update_read. repeat split.
Qed.

Lemma freshness_consumed_once_witness :
  exists o w1,
    TextFileStream.create sample_env "file:///tmp/notes.txt" quiet_world = (Ret o, w1)
    /\ TextFileStream._value (fst (snd (TextFileStream.update (o, w1))))
       = [Atomic (Node NItem "file:///tmp/notes.txt")]
    /\ trace (snd (snd (TextFileStream.update (o, w1)))) = [EFopen "/tmp/notes.txt"]
    /\ trace (snd (snd (TextFileStream.update (snd (TextFileStream.update (o, w1))))))
       = [EFopen "/tmp/notes.txt"; EFgets].
Proof.
  eexists. eexists. split; [reflexivity|].
  destruct (freshness_consumed_once sample_env "file:///tmp/notes.txt" quiet_world eq_refl)
    as (fh & Hfh & H1 & _ & H2).
  split; [rewrite H1; reflexivity|]. split; [rewrite H1; reflexivity|].
  rewrite H2. injection Hfh as <-. reflexivity.
Defined.

(* ================================================================== *)
(** ** Relations kept by every step of a computation                   *)
(* ================================================================== *)

Section Respects.
Variable S : Type.
Variable R : S -> S -> Prop.
Hypothesis R_refl : forall s, R s s.
Hypothesis R_trans : forall a b c, R a b -> R b c -> R a c.

Lemma respects_ret {A} (a : A) : respects R (ret a).
Proof. intro s. apply R_refl. Qed.

Lemma respects_throw {A} (e : exn) : respects R (@throw S A e).
Proof. intro s. apply R_refl. Qed.

Lemma respects_diverge {A} : respects R (@diverge S A).
Proof. intro s. apply R_refl. Qed.

Lemma respects_undefined {A} : respects R (@undefined S A).
Proof. intro s. apply R_refl. Qed.

Lemma respects_bind {A B} (m : M S A) (k : A -> M S B) :
  respects R m -> (forall a, respects R (k a)) -> respects R (bind m k).
Proof.
  intros Hm Hk s. unfold bind. specialize (Hm s).
  destruct (m s) as [[a| e | | ] s1]; cbn [snd] in *; try exact Hm.
  eapply R_trans; [exact Hm | apply Hk].
Qed.

Lemma respects_for_each {A} (body : A -> M S unit) (xs : list A) :
  (forall x, In x xs -> respects R (body x)) -> respects R (for_each body xs).
Proof.
  induction xs as [|x xs IH]; intro H; cbn [for_each].
  - apply respects_ret.
  - apply respects_bind; [apply H; left; reflexivity|].
    intros _. apply IH. intros y Hy. apply H. right. exact Hy.
Qed.
End Respects.

Lemma evolves_refl (s : TextFileStream.state) : evolves s s.
Proof. repeat split. exists []. rewrite app_nil_r. reflexivity. Qed.

Lemma evolves_trans (a b c : TextFileStream.state) :
  evolves a b -> evolves b c -> evolves a c.
Proof.
  intros ([t1 H1] & F1 & U1 & V1 & H1') ([t2 H2] & F2 & U2 & V2 & H2').
  repeat split; try congruence.
  exists (t1 ++ t2). rewrite H2, H1, app_assoc. reflexivity.
Qed.

Lemma keeps_log (e : event) : keeps (log (O := TextFileStream.t) e).
Proof. intros [o w]. repeat split. exists [e]. reflexivity. Qed.

Lemma keeps_fprintf (bytes : string) : keeps (TextFileStream.fprintf bytes).
Proof.
  intros [[fr [fh|] uri v] w]; [|apply evolves_refl].
  repeat split. exists [EFprintf bytes]. reflexivity.
Qed.

Lemma keeps_fflush : keeps TextFileStream.fflush.
Proof.
  intros [[fr [fh|] uri v] w]; [|apply evolves_refl].
  repeat split. exists [EFflush]. reflexivity.
Qed.

Lemma keeps_value (E : Env) (v : Value) : keeps (value (O := TextFileStream.t) E v).
Proof.
  destruct v; try (intro s; apply evolves_refl).
  intros [o w]. repeat split. exists [EPull id]. reflexivity.
Qed.

Create HintDb streams.
#[local] Hint Resolve evolves_refl evolves_trans : streams.
#[local] Hint Resolve keeps_log keeps_fprintf keeps_fflush keeps_value : streams.

Lemma keeps_prt_value (E : Env) (fuel : nat) :
  forall content, keeps (TextFileStream.prt_value E fuel content).
Proof.
  induction fuel as [|fuel IH]; intro content; cbn [TextFileStream.prt_value].
  - apply respects_diverge; auto with streams.
  - destruct (is_type content STRING_VALUE).
    { apply respects_for_each; eauto with streams. }
    destruct (is_type content NODE); [auto with streams|].
    destruct (is_type content LINK_VALUE).
    { apply respects_bind; eauto with streams.
      intro vals. apply respects_for_each; eauto with streams. }
    cbv zeta.
    destruct (Type_eqb LIST_LINK (get_type content) || Type_eqb SET_LINK (get_type content)).
    + apply respects_for_each; eauto with streams.
    + apply respects_throw; auto with streams.
Qed.

Lemma keeps_print_batch (E : Env) (depth : nat) (vals : list Value) :
  forall n, keeps (TextFileStream.print_batch E depth vals n).
Proof.
  induction vals as [|v vals IH]; intro n; cbn [TextFileStream.print_batch].
  - apply respects_ret; auto with streams.
  - intro s. destruct (is_empty_link (snd s) v).
    + apply IH.
    + apply respects_bind; eauto using keeps_prt_value with streams.
Qed.

Lemma keeps_drain (E : Env) (depth fuel : nat) (lvp : Value) :
  keeps (TextFileStream.drain E depth fuel lvp).
Proof.
  induction fuel as [|fuel IH]; cbn [TextFileStream.drain].
  - apply respects_diverge; auto with streams.
  - apply respects_bind; eauto with streams. intro vals.
    destruct (Nat.eqb 0 (length vals)); [apply respects_ret; auto with streams|].
    apply respects_bind; eauto using keeps_print_batch with streams. intro n.
    apply respects_bind; eauto with streams. intros _.
    destruct (Nat.eqb 0 n); [apply respects_ret; auto with streams | exact IH].
Qed.

Lemma keeps_write_out (E : Env) (fuel : nat) (cref : Atom) :
  keeps (TextFileStream.write_out E fuel cref).
Proof.
  intros s. unfold TextFileStream.write_out, bind at 1, get_obj.
  destruct (TextFileStream._fh (fst s)); [|apply evolves_refl].
  revert s. apply respects_bind; eauto with streams.
  - destruct (is_executable E cref); [|apply respects_ret; auto with streams].
    apply respects_bind; eauto with streams. intros _.
    destruct (execute E cref);
      [apply respects_ret | apply respects_throw]; auto with streams.
  - intro content. destruct (negb (is_type content LINK_STREAM_VALUE)).
    + apply respects_bind; eauto using keeps_prt_value with streams. intros _.
      apply respects_bind; eauto with streams. intros _.
      apply respects_ret; auto with streams.
    + apply respects_bind; eauto using keeps_drain with streams. intros _.
      apply respects_ret; auto with streams.
Qed.

(* ================================================================== *)
(** ** The invariant along any sequence of calls                       *)
(* ================================================================== *)

Lemma file_update_inv (s : TextFileStream.state) : file_inv (snd (TextFileStream.update s)).
Proof.
  destruct s as [[fr [fh|] uri v] w].
  - destruct fr.
    + rewrite file_update_fresh. intro H. discriminate H.
    + rewrite file_update_read. cbn [snd].
      destruct (fgets BUFSZ fh) as [[buff|] fh']; intro H; [discriminate H|reflexivity].
  - rewrite file_update_closed by reflexivity. intros _. reflexivity.
Qed.

Lemma file_write_out_inv (E : Env) (fuel : nat) (cref : Atom) (s : TextFileStream.state) :
  file_inv s -> file_inv (snd (TextFileStream.write_out E fuel cref s)).
Proof.
  intros Hs Hn. destruct (keeps_write_out E fuel cref s) as (_ & _ & _ & Hv & Hh).
  rewrite Hv. apply Hs. rewrite Hn in Hh.
  destruct (TextFileStream._fh (fst s)); [discriminate Hh | reflexivity].
Qed.

Lemma file_run_inv (E : Env) (cs : list file_call) :
  forall s, file_inv s -> file_inv (file_run E cs s).
Proof.
  induction cs as [|c cs IH]; intros s Hs; [exact Hs|].
  cbn [file_run fold_left]. apply IH. destruct c; cbn [file_perform].
  - apply file_update_inv.
  - apply file_write_out_inv, Hs.
Qed.

(** A closed file stream with an empty value is a fixed point of every
    call. *)
Lemma file_run_closed (E : Env) (cs : list file_call) (s : TextFileStream.state) :
  TextFileStream._fh (fst s) = None ->
  TextFileStream._value (fst s) = [] ->
  file_run E cs s = s.
Proof.
  intros Hh Hv. induction cs as [|c cs IH]; [reflexivity|].
  cbn [file_run fold_left].
  assert (Hc : file_perform E c s = s).
  { destruct c; cbn [file_perform].
    - destruct s as [[fr h uri v] w]. cbn [fst TextFileStream._fh TextFileStream._value] in *.
      subst. reflexivity.
    - rewrite file_write_out_closed by exact Hh. reflexivity. }
  rewrite Hc. exact IH.
Qed.

Lemma terminal_update_closed (o : TerminalStream.t) (w : World) :
  TerminalStream._fh o = None ->
  TerminalStream.update (o, w) = (Ret tt, (TerminalStream.set_value [] o, w)).
Proof.
  intro H. unfold TerminalStream.update, bind, get_obj. cbn [fst snd].
  rewrite H. reflexivity.
Qed.

Lemma terminal_update_inv (s : TerminalStream.state) :
  terminal_inv (snd (TerminalStream.update s)).
Proof.
  destruct s as [[[fh|] pid v] w].
  - unfold TerminalStream.update, bind at 1, get_obj. cbn [fst snd TerminalStream._fh].
    unfold bind at 1, log. cbn [fst snd].
    destruct (fgets BUFSZ fh) as [[buff|] fh'].
    + intro H. discriminate H.
    + rewrite halt_spec. intros _. reflexivity.
  - rewrite terminal_update_closed by reflexivity. intros _. reflexivity.
Qed.

Section TerminalLife.
Variable dwo : nat -> Atom -> M TerminalStream.state Value.

(** What is asked of the base-class writer: it does not break the
    invariant. *)
Hypothesis dwo_inv :
  forall fuel cref s, terminal_inv s -> terminal_inv (snd (dwo fuel cref s)).

Lemma terminal_write_out_inv (fuel : nat) (cref : Atom) (s : TerminalStream.state) :
  terminal_inv s -> terminal_inv (snd (TerminalStream.write_out dwo fuel cref s)).
Proof.
  intro Hs. unfold TerminalStream.write_out, bind, get_obj.
  destruct (TerminalStream._fh (fst s)) eqn:Hh.
  - apply dwo_inv, Hs.
  - exact Hs.
Qed.

Lemma terminal_run_inv (cs : list terminal_call) :
  forall s, terminal_inv s -> terminal_inv (terminal_run dwo cs s).
Proof.
  induction cs as [|c cs IH]; intros s Hs; [exact Hs|].
  cbn [terminal_run fold_left]. apply IH. destruct c; cbn [terminal_perform].
  - apply terminal_update_inv.
  - destruct s as [o w]. rewrite halt_spec. intros _. reflexivity.
  - apply terminal_write_out_inv, Hs.
Qed.
End TerminalLife.

(** A closed terminal stream stays closed and empty whatever is called,
    and whatever the base-class writer would do. *)
Lemma terminal_run_closed (dwo : nat -> Atom -> M TerminalStream.state Value)
      (cs : list terminal_call) :
  forall s,
    TerminalStream._fh (fst s) = None ->
    TerminalStream._value (fst s) = [] ->
    TerminalStream._fh (fst (terminal_run dwo cs s)) = None
    /\ TerminalStream._value (fst (terminal_run dwo cs s)) = [].
Proof.
  induction cs as [|c cs IH]; intros s Hh Hv; [split; assumption|].
  cbn [terminal_run fold_left]. destruct c; cbn [terminal_perform].
  - destruct s as [o w]. rewrite terminal_update_closed by exact Hh.
    apply IH; cbn [snd fst]; [exact Hh | reflexivity].
  - destruct s as [o w]. rewrite halt_spec. apply IH; reflexivity.
  - rewrite terminal_write_out_closed by exact Hh. apply IH; assumption.
Qed.

Lemma terminal_create_ret (E : Env) (w w1 : World) (o : TerminalStream.t) :
  TerminalStream.create E w = (Ret o, w1) -> TerminalStream._value o = [].
Proof.
  unfold TerminalStream.create, TerminalStream.init, bind, set_obj, throw, log, ret.
  cbn [fst snd].
  destruct (posix_openpt E) as [fd|]; [|discriminate]. cbn [fst snd].
  destruct (negb (unlockpt E fd)); [discriminate|]. cbn [fst snd].
  destruct (ptsname_r E fd) as [pts|]; [|discriminate]. cbn [fst snd].
  destruct (Z.eqb (-1) (fork E)); [discriminate|].
  destruct (Z.eqb 0 (fork E)); cbn [fst snd]; intro H; injection H as <- _; reflexivity.
Qed.

(** C3.  For a file stream and for a terminal stream, in every state
    that a constructed stream can get into by calls of its methods: if the
    handle is null then the value is empty, [update] returns normally and
    changes nothing, and after any further calls the handle is still null
    and the value still empty.  An [update] that meets end-of-resource on an
    open handle leaves the handle null.  For the terminal stream the
    base-class writer, which is outside the two files, is assumed not to
    break "null handle implies empty value". *)
Theorem closed_stream_is_empty_and_stays_closed :
  (forall (E : Env) url w o w1 cs,
      TextFileStream.create E url w = (Ret o, w1) ->
      let s := file_run E cs (o, w1) in
      TextFileStream._fh (fst s) = None ->
      TextFileStream._value (fst s) = []
      /\ TextFileStream.update s = (Ret tt, s)
      /\ forall more,
           let s' := file_run E more s in
           TextFileStream._fh (fst s') = None
           /\ TextFileStream._value (fst s') = []
           /\ TextFileStream.update s' = (Ret tt, s'))
  /\ (forall fh uri v w,
      fst (fgets BUFSZ fh) = None ->
      TextFileStream._fh
        (fst (snd (TextFileStream.update (TextFileStream.mk false (Some fh) uri v, w))))
      = None)
  /\ (forall (E : Env) (dwo : nat -> Atom -> M TerminalStream.state Value),
      (forall fuel cref s, terminal_inv s -> terminal_inv (snd (dwo fuel cref s))) ->
      forall w o w1 cs,
        TerminalStream.create E w = (Ret o, w1) ->
        let s := terminal_run dwo cs (o, w1) in
        TerminalStream._fh (fst s) = None ->
        TerminalStream._value (fst s) = []
        /\ TerminalStream.update s = (Ret tt, s)
        /\ forall more,
             let s' := terminal_run dwo more s in
             TerminalStream._fh (fst s') = None
             /\ TerminalStream._value (fst s') = []
             /\ TerminalStream.update s' = (Ret tt, s'))
  /\ (forall fh pid v w,
      fst (fgets BUFSZ fh) = None ->
      TerminalStream._fh
        (fst (snd (TerminalStream.update (TerminalStream.mk (Some fh) pid v, w))))
      = None).
Proof.
  assert (Hfix_file : forall s : TextFileStream.state,
            TextFileStream._fh (fst s) = None ->
            TextFileStream._value (fst s) = [] ->
            TextFileStream.update s = (Ret tt, s)).
  { intros [[fr h uri v] w] Hh Hv. cbn [fst TextFileStream._fh TextFileStream._value] in *.
    subst. reflexivity. }
  assert (Hfix_term : forall s : TerminalStream.state,
            TerminalStream._fh (fst s) = None ->
            TerminalStream._value (fst s) = [] ->
            TerminalStream.update s = (Ret tt, s)).
  { intros [[h pid v] w] Hh Hv. cbn [fst TerminalStream._fh TerminalStream._value] in *.
    subst. reflexivity. }
  split; [|split; [|split]].
  - intros E url w o w1 cs Hc s Hh.
    assert (Hv : TextFileStream._value (fst s) = []).
    { apply (@file_run_inv E cs (o, w1)); [|exact Hh].
      destruct (create_ret _ _ _ Hc) as (fh & -> & _). intro H. discriminate H. }
    split; [exact Hv|]. split; [apply Hfix_file; assumption|].
    intros more s'. subst s'. rewrite (file_run_closed E more s Hh Hv).
    split; [exact Hh|]. split; [exact Hv|]. apply Hfix_file; assumption.
  - intros fh uri v w Hg. rewrite file_update_read. cbn [snd].
    destruct (fgets BUFSZ fh) as [[buff|] fh']; [discriminate Hg | reflexivity].
  - intros E dwo Hdwo w o w1 cs Hc s Hh.
    assert (Hv : TerminalStream._value (fst s) = []).
    { apply (@terminal_run_inv dwo Hdwo cs (o, w1)); [|exact Hh].
      intros _. exact (terminal_create_ret _ _ Hc). }
    split; [exact Hv|]. split; [apply Hfix_term; assumption|].
    intros more s'. subst s'.
    destruct (terminal_run_closed dwo more s Hh Hv) as [Hh' Hv'].
    split; [exact Hh'|]. split; [exact Hv'|]. apply Hfix_term; assumption.
  - intros fh pid v w Hg.
    unfold TerminalStream.update, bind at 1, get_obj. cbn [fst snd TerminalStream._fh].
    unfold bind at 1, log. cbn [fst snd].
    destruct (fgets BUFSZ fh) as [[buff|] fh']; [discriminate Hg|].
    rewrite halt_spec. reflexivity.
Qed.

Lemma closed_stream_is_empty_and_stays_closed_witness :
  (exists o w1,
      TextFileStream.create sample_env "file:///tmp/notes.txt" quiet_world = (Ret o, w1)
      /\ let s := file_run sample_env [FUpdate; FUpdate; FUpdate; FUpdate] (o, w1) in
         TextFileStream._fh (fst s) = None
         /\ TextFileStream._value (fst s) = []
         /\ TextFileStream.update s = (Ret tt, s))
  /\ (exists o w1,
      TerminalStream.create sample_env quiet_world = (Ret o, w1)
      /\ let s := terminal_run echo_write_out [TUpdate] (o, w1) in
         TerminalStream._fh (fst s) = None
         /\ TerminalStream._value (fst s) = []
         /\ TerminalStream.update s = (Ret tt, s))
  /\ fst (fgets BUFSZ (mkFILE EmptyString EmptyString)) = None
  /\ TextFileStream._fh
       (fst (snd (TextFileStream.update
                    (TextFileStream.mk false (Some (mkFILE EmptyString EmptyString))
                                       "file:///tmp/notes.txt" [], quiet_world))))
     = None
  /\ TerminalStream._fh (fst (snd (TerminalStream.update (open_terminal, quiet_world))))
     = None.
Proof.
  destruct closed_stream_is_empty_and_stays_closed as (Hfile & Hfeof & Hterm & Hteof).
  split; [|split; [|split; [|split]]].
  - eexists. eexists. split; [reflexivity|].
    cbv zeta. split; [reflexivity|].
    destruct (Hfile sample_env "file:///tmp/notes.txt" quiet_world _ _
                    [FUpdate; FUpdate; FUpdate; FUpdate] eq_refl eq_refl)
      as (Hv & Hu & _).
    split; [exact Hv | exact Hu].
  - eexists. eexists. split; [reflexivity|].
    cbv zeta. split; [reflexivity|].
    destruct (Hterm sample_env echo_write_out (fun _ _ _ H => H) quiet_world _ _
                    [TUpdate] eq_refl eq_refl)
      as (Hv & Hu & _).
    split; [exact Hv | exact Hu].
  - reflexivity.
  - apply Hfeof. reflexivity.
  - apply Hteof. reflexivity.
Defined.

(* ================================================================== *)
(** ** The drain loop                                                  *)
(* ================================================================== *)

Lemma is_empty_link_iff (w : World) (v : Value) :
  is_empty_link w v = true
  <-> v = LinkValue [] \/ exists id, v = LinkStreamValue id /\ cached w id = [].
Proof.
  unfold is_empty_link. split.
  - intro H. apply andb_true_iff in H. destruct H as [Ht Hs].
    apply Nat.eqb_eq in Hs. symmetry in Hs.
    destruct v as [[t name|t oset]| | |vals|id];
      try (destruct t; discriminate Ht); try discriminate Ht.
    + left. apply length_zero_iff_nil in Hs. cbn in Hs. subst. reflexivity.
    + right. exists id. split; [reflexivity|].
      apply length_zero_iff_nil. exact Hs.
  - intros [->|(id & -> & Hc)]; [reflexivity|].
    cbn. rewrite Hc. reflexivity.
Qed.

Lemma print_batch_all_skipped (E : Env) (depth : nat) (vals : list Value) (n : nat)
      (s : TextFileStream.state) :
  forallb (is_empty_link (snd s)) vals = true ->
  TextFileStream.print_batch E depth vals n s = (Ret n, s).
Proof.
  induction vals as [|v vals IH]; intro H; [reflexivity|].
  cbn [forallb] in H. apply andb_true_iff in H. destruct H as [Hv Hvals].
  cbn [TextFileStream.print_batch]. rewrite Hv. apply IH, Hvals.
Qed.

Lemma print_batch_blank_text (E : Env) (depth : nat) (k n : nat)
      (s : TextFileStream.state) :
  TextFileStream.print_batch E (S depth) (repeat (StringValue []) k) n s
  = (Ret (n + k), s).
Proof.
  revert n. induction k as [|k IH]; intro n.
  - cbn. rewrite Nat.add_0_r. reflexivity.
  - cbn [repeat TextFileStream.print_batch]. unfold is_empty_link.
    cbn [is_type get_type isA Type_eqb orb andb].
    unfold bind. cbn [TextFileStream.prt_value is_type get_type isA Type_eqb orb
                      StringValue_value for_each]. unfold ret at 1.
    rewrite IH. rewrite Nat.add_succ_r. reflexivity.
Qed.

(** One turn of the loop on a batch that is not empty and made of empty
    LinkValues only: one pull, nothing printed, one flush, and out. *)
Lemma drain_empty_wrappers (E : Env) (depth fuel : nat) (id : StreamId)
      (s : TextFileStream.state) (fh : FILE) :
  TextFileStream._fh (fst s) = Some fh ->
  upstream E id (pulled (snd s) id) <> [] ->
  Forall (fun v => v = LinkValue []) (upstream E id (pulled (snd s) id)) ->
  TextFileStream.drain E depth (S fuel) (LinkStreamValue id) s
  = (Ret tt,
     (fst s,
      mkWorld (trace (snd s) ++ [EPull id; EFflush])
              (upd (pulled (snd s)) id (S (pulled (snd s) id)))
              (upd (cached (snd s)) id (upstream E id (pulled (snd s) id))))).
Proof.
  intros Hh Hne Hall. destruct s as [o w]. cbn [fst snd] in *.
  cbn [TextFileStream.drain value]. unfold bind at 1, pull. cbn [fst snd].
  destruct (upstream E id (pulled w id)) as [|v vals] eqn:Hb; [congruence|].
  cbn [length Nat.eqb].
  unfold bind at 1. rewrite print_batch_all_skipped.
  - unfold TextFileStream.fflush. unfold bind, get_obj, log. cbn [fst snd].
    rewrite Hh. cbn [fst snd trace pulled cached Nat.eqb].
    rewrite <- app_assoc. reflexivity.
  - apply forallb_forall. intros x Hx.
    rewrite Forall_forall in Hall. rewrite (Hall x Hx). reflexivity.
Qed.

Lemma pulls_of_app (id : StreamId) (a b : list event) :
  pulls_of id (a ++ b) = pulls_of id a + pulls_of id b.
Proof. unfold pulls_of. rewrite filter_app, length_app. reflexivity. Qed.

(** C1.  The content reference evaluates to a streaming value every
    batch of which is non-empty and made of empty LinkValues only.  Then
    [write_out], given any fuel of at least one turn, returns the stream
    normally after the evaluation, one pull and one flush: exactly one
    pull, and nothing written. *)
Theorem write_out_stops_on_empty_wrappers
        (E : Env) (fuel : nat) (cref : Atom) (id : StreamId)
        (s : TextFileStream.state) (fh : FILE) :
  TextFileStream._fh (fst s) = Some fh ->
  is_executable E cref = true ->
  execute E cref = Some (LinkStreamValue id) ->
  (forall n, upstream E id n <> []
             /\ Forall (fun v => v = LinkValue []) (upstream E id n)) ->
  let r := TextFileStream.write_out E (S fuel) cref s in
  fst r = Ret (LinkStreamValue id)
  /\ fst (snd r) = fst s
  /\ trace (snd (snd r)) = trace (snd s) ++ [EExecute cref; EPull id; EFflush]
  /\ pulls_of id (trace (snd (snd r))) = S (pulls_of id (trace (snd s)))
  /\ pulled (snd (snd r)) id = S (pulled (snd s) id).
Proof.
  intros Hh Hx Hc Hup r.
  assert (Hr : r = (Ret (LinkStreamValue id),
                    (fst s,
                     mkWorld (trace (snd s) ++ [EExecute cref; EPull id; EFflush])
                             (upd (pulled (snd s)) id (S (pulled (snd s) id)))
                             (upd (cached (snd s)) id
                                  (upstream E id (pulled (snd s) id)))))).
  { subst r. destruct s as [o w]. cbn [fst snd] in *.
    unfold TextFileStream.write_out. unfold bind at 1, get_obj. cbn [fst snd].
    rewrite Hh, Hx, Hc. unfold bind at 1. unfold bind at 1, log, ret.
    cbn [is_type get_type isA Type_eqb orb negb fst snd].
    unfold bind at 1.
    destruct (Hup (pulled w id)) as [Hne Hall].
    rewrite (drain_empty_wrappers E (S fuel) fuel id
               (o, mkWorld (trace w ++ [EExecute cref]) (pulled w) (cached w))
               Hh Hne Hall).
    cbn [fst snd trace pulled cached]. rewrite <- app_assoc. reflexivity. }
  rewrite Hr. cbn [fst snd trace pulled].
  repeat split.
  - rewrite pulls_of_app. unfold pulls_of at 2. cbn [filter].
    rewrite Nat.eqb_refl. cbn [length]. lia.
  - unfold upd. rewrite Nat.eqb_refl. reflexivity.
Qed.

Lemma write_out_stops_on_empty_wrappers_witness :
  let cref := Link LExecutionOutput [Node NConcept "wrappers"] in
  TextFileStream.write_out sample_env 1 cref (open_file, quiet_world)
  = (Ret (LinkStreamValue 0),
     (open_file,
      snd (snd (TextFileStream.write_out sample_env 1 cref (open_file, quiet_world)))))
  /\ trace (snd (snd (TextFileStream.write_out sample_env 1 cref (open_file, quiet_world))))
     = [EExecute cref; EPull 0; EFflush].
Proof.
  intro cref. split; [reflexivity|].
  refine (proj1 (proj2 (proj2
    (@write_out_stops_on_empty_wrappers sample_env 0 cref 0
       (open_file, quiet_world) _ eq_refl eq_refl eq_refl _)))).
  intro n. split; [discriminate|]. repeat constructor.
Defined.

(** A turn of the loop begins by pulling. *)
Lemma drain_starts_with_pull (E : Env) (depth fuel : nat) (id : StreamId)
      (s : TextFileStream.state) :
  exists tl,
    trace (snd (snd (TextFileStream.drain E depth (S fuel) (LinkStreamValue id) s)))
    = trace (snd s) ++ EPull id :: tl.
Proof.
  destruct s as [o w]. cbn [TextFileStream.drain value].
  unfold bind at 1, pull. cbn [fst snd].
  match goal with
  | |- context [snd (?K ?s2)] =>
      assert (HK : keeps K); [|destruct (HK s2) as [[tl Htl] _]]
  end.
  { destruct (Nat.eqb 0 (length (upstream E id (pulled w id))));
      [apply respects_ret; auto with streams|].
    apply respects_bind; eauto using keeps_print_batch with streams. intro n.
    apply respects_bind; eauto with streams. intros _.
    destruct (Nat.eqb 0 n); [apply respects_ret; auto with streams|].
    apply keeps_drain. }
  exists tl. rewrite Htl. cbn [snd trace]. rewrite <- app_assoc. reflexivity.
Qed.

(** One turn of the loop on a batch of empty StringValues: every item is
    printed (no bytes) and counted, so the loop goes round again. *)
Lemma drain_blank_text (E : Env) (depth fuel k : nat) (id : StreamId)
      (s : TextFileStream.state) (fh : FILE) :
  TextFileStream._fh (fst s) = Some fh ->
  upstream E id (pulled (snd s) id) = repeat (StringValue []) (S k) ->
  TextFileStream.drain E (S depth) (S fuel) (LinkStreamValue id) s
  = TextFileStream.drain E (S depth) fuel (LinkStreamValue id)
      (fst s,
       mkWorld (trace (snd s) ++ [EPull id; EFflush])
               (upd (pulled (snd s)) id (S (pulled (snd s) id)))
               (upd (cached (snd s)) id (repeat (StringValue []) (S k)))).
Proof.
  intros Hh Hb. destruct s as [o w]. cbn [fst snd] in *.
  cbn [TextFileStream.drain value]. unfold bind at 1, pull. cbn [fst snd].
  rewrite Hb. cbn [repeat length Nat.eqb].
  unfold bind at 1.
  change (StringValue [] :: repeat (StringValue []) k)
    with (repeat (StringValue []) (S k)).
  rewrite print_batch_blank_text.
  unfold TextFileStream.fflush. unfold bind at 1. unfold bind at 1, get_obj.
  cbn [fst snd]. rewrite Hh. unfold log. cbn [fst snd trace pulled cached Nat.add Nat.eqb].
  rewrite <- app_assoc. reflexivity.
Qed.

(** C10.  The loop skips an item, and leaves it out of the count,
    exactly when the item is a LINK_VALUE of size zero: an empty
    LinkValue, or a streaming value holding nothing.  An empty
    StringValue is not skipped: it is printed, which writes nothing and
    leaves the state alone, and it is counted.  Hence a non-empty batch of
    empty StringValues does not end the loop: the next turn pulls
    again. *)
Theorem empty_text_is_printed_and_counted :
  (forall w v,
      is_empty_link w v = true
      <-> v = LinkValue [] \/ exists id, v = LinkStreamValue id /\ cached w id = [])
  /\ (forall E depth v vals n s,
      TextFileStream.print_batch E depth (v :: vals) n s
      = if is_empty_link (snd s) v
        then TextFileStream.print_batch E depth vals n s
        else bind (TextFileStream.prt_value E depth v)
                  (fun _ => TextFileStream.print_batch E depth vals (S n)) s)
  /\ (forall E depth k n s,
      TextFileStream.print_batch E (S depth) (repeat (StringValue []) k) n s
      = (Ret (n + k), s))
  /\ (forall E depth fuel k id (s : TextFileStream.state) fh,
      TextFileStream._fh (fst s) = Some fh ->
      upstream E id (pulled (snd s) id) = repeat (StringValue []) (S k) ->
      TextFileStream.drain E (S depth) (S fuel) (LinkStreamValue id) s
      = TextFileStream.drain E (S depth) fuel (LinkStreamValue id)
          (fst s,
           mkWorld (trace (snd s) ++ [EPull id; EFflush])
                   (upd (pulled (snd s)) id (S (pulled (snd s) id)))
                   (upd (cached (snd s)) id (repeat (StringValue []) (S k))))
      /\ exists tl,
          trace (snd (snd (TextFileStream.drain E (S depth) (S (S fuel))
                             (LinkStreamValue id) s)))
          = trace (snd s) ++ [EPull id; EFflush; EPull id] ++ tl).
Proof.
  split; [exact is_empty_link_iff|].
  split; [reflexivity|].
  split; [exact print_batch_blank_text|].
  intros E depth fuel k id s fh Hh Hb.
  split; [exact (@drain_blank_text E depth fuel k id s fh Hh Hb)|].
  rewrite (@drain_blank_text E depth (S fuel) k id s fh Hh Hb).
  match goal with
  | |- context [TextFileStream.drain _ _ _ _ ?s1] =>
      destruct (drain_starts_with_pull E (S depth) fuel id s1) as [tl Htl]
  end.
  exists tl. rewrite Htl. cbn [snd trace]. rewrite <- app_assoc. reflexivity.
Qed.

Lemma empty_text_is_printed_and_counted_witness :
  let cref := Link LExecutionOutput [Node NConcept "blanks"] in
  let r := TextFileStream.write_out sample_env 2 cref (open_file, quiet_world) in
  fst r = Diverge
  /\ trace (snd (snd r)) = [EExecute cref; EPull 1; EFflush; EPull 1; EFflush]
  /\ sink (snd r) = Some EmptyString
  /\ exists tl,
      trace (snd (snd (TextFileStream.drain sample_env 1 2 (LinkStreamValue 1)
                         (open_file, quiet_world))))
      = [EPull 1; EFflush; EPull 1] ++ tl.
Proof.
  intros cref r. split; [reflexivity|]. split; [reflexivity|]. split; [reflexivity|].
  destruct empty_text_is_printed_and_counted as (_ & _ & _ & Hloop).
  destruct (Hloop sample_env 0 0 0 1 (open_file, quiet_world) _ eq_refl eq_refl)
    as [_ Htl].
  exact Htl.
Defined.

(* ================================================================== *)
(** ** Runs on the sample machine                                      *)
(* ================================================================== *)

(** [%s] stops at a NUL inside a std::string. *)
Example prt_value_stops_at_nul :
  sink (snd (TextFileStream.prt_value sample_env 1
               (StringValue [String "a" (String NUL "b"); "c"])
               (open_file, quiet_world)))
  = Some "ac".
Proof. reflexivity. Qed.

(** Text obtained by evaluation is written and flushed. *)
Example write_out_text :
  let cref := Link LExecutionOutput [Node NConcept "text"] in
  TextFileStream.write_out sample_env 1 cref (open_file, quiet_world)
  = (Ret (StringValue ["ab"; "cd"]),
     (TextFileStream.mk false (Some (mkFILE EmptyString "abcd")) "file:///tmp/notes.txt" [],
      mkWorld [EExecute cref; EFprintf "ab"; EFprintf "cd"; EFflush]
              (fun _ => 0) (fun _ => []))).
Proof. reflexivity. Qed.

(** After a write the position is at the end of the file: the next
    [update] finds nothing to read and closes the stream. *)
Example update_after_write_closes :
  let s1 := snd (TextFileStream.write_out sample_env 1 (Node NItem "foo")
                   (open_file, quiet_world)) in
  TextFileStream.update s1
  = (Ret tt,
     (TextFileStream.mk false None "file:///tmp/notes.txt" [],
      mkWorld [EFprintf " foo"; EFflush; EFgets; EFclose] (fun _ => 0) (fun _ => []))).
Proof. reflexivity. Qed.

(** A list of nodes is written member by member, each after a space. *)
Example write_out_list_link :
  sink (snd (TextFileStream.write_out sample_env 2
               (Link LList [Node NItem "foo"; Node NConcept "bar"])
               (open_file, quiet_world)))
  = Some " foo bar".
Proof. reflexivity. Qed.

(** A link that is neither a ListLink nor a SetLink is refused. *)
Example write_out_ordered_link :
  fst (TextFileStream.write_out sample_env 2
         (Link LOrdered [Node NItem "foo"]) (open_file, quiet_world))
  = Throw (ExpectingStrings (Atomic (Link LOrdered [Node NItem "foo"]))).
Proof. reflexivity. Qed.

(** A producer that ends: one batch printed, the second pull finds
    nothing. *)
Example write_out_finite_stream :
  let cref := Link LExecutionOutput [Node NConcept "once"] in
  let r := TextFileStream.write_out sample_env 2 cref (open_file, quiet_world) in
  fst r = Ret (LinkStreamValue 2)
  /\ sink (snd r) = Some "hello"
  /\ trace (snd (snd r))
     = [EExecute cref; EPull 2; EFprintf "hello"; EFflush; EPull 2].
Proof. repeat split. Qed.

(** The file of the sample machine, read to its end. *)
Example read_two_lines :
  map (fun n => TextFileStream._value
                  (fst (file_run sample_env (repeat FUpdate n)
                          (TextFileStream.mk true (Some (mkFILE two_lines EmptyString))
                                             "file:///tmp/notes.txt" [],
                           quiet_world))))
      [1; 2; 3; 4; 5]
  = [ [Atomic (Node NItem "file:///tmp/notes.txt")];
      [Atomic (Node NItem (String.append "alpha" (String NL EmptyString)))];
      [Atomic (Node NItem (String.append "beta" (String NL EmptyString)))];
      [];
      [] ].
Proof. reflexivity. Qed.

(** The terminal of the sample machine: construction, then teardown. *)
Example terminal_create_and_halt :
  exists o w1,
    TerminalStream.create sample_env quiet_world = (Ret o, w1)
    /\ trace w1 = [EOpenpt; EUnlockpt 5; EPtsname 5; EFork; EClose 5; EFopen "/dev/pts/7"]
    /\ trace (snd (snd (TerminalStream.halt (o, w1))))
       = trace w1 ++ [EFclose; EKill 4242].
Proof. eexists. eexists. repeat split. Qed.

(* ================================================================== *)
(** ** The serializer against its pure account                         *)
(* ================================================================== *)

Lemma height_seq_bound {A : Type} (f : A -> nat) (l : list A) (x : A) :
  In x l -> f x <= height_seq f l.
Proof.
  induction l as [|y l IH]; intro H; [contradiction|].
  cbn [height_seq fold_right]. destruct H as [->|H].
  - apply Nat.le_max_l.
  - etransitivity; [apply IH, H | apply Nat.le_max_r].
Qed.

Lemma render_seq_map (oset : list Atom) :
  render_seq render (map Atomic oset) = render_seq render_atom oset.
Proof.
  induction oset as [|a oset IH]; [reflexivity|].
  cbn [map render_seq render]. rewrite IH. reflexivity.
Qed.

Lemma render_seq_app {A : Type} (f : A -> string * option Value) (a b : list A) :
  snd (render_seq f a) = None ->
  render_seq f (a ++ b)
  = (String.append (fst (render_seq f a)) (fst (render_seq f b)),
     snd (render_seq f b)).
Proof.
  induction a as [|x a IH]; intro H.
  - cbn. destruct (render_seq f b). reflexivity.
  - cbn [app render_seq] in *. destruct (f x) as [bx [bad|]]; [discriminate H|].
    destruct (render_seq f a) as [ba ea]. cbn [snd] in H. subst ea.
    rewrite (IH eq_refl). cbn [fst snd]. rewrite append_assoc. reflexivity.
Qed.

(** Running a loop whose body agrees with [f] on every member agrees
    with [render_seq f]. *)
Lemma for_each_render {A : Type} (body : A -> M TextFileStream.state unit)
      (f : A -> string * option Value) (l : list A) :
  (forall x, In x l ->
     forall fr fh uri val w, exists w',
       body x (TextFileStream.mk fr (Some fh) uri val, w)
       = (out_of (snd (f x)),
          (TextFileStream.mk fr (Some (fappend (fst (f x)) fh)) uri val, w'))) ->
  forall fr fh uri val w, exists w',
    for_each body l (TextFileStream.mk fr (Some fh) uri val, w)
    = (out_of (snd (render_seq f l)),
       (TextFileStream.mk fr (Some (fappend (fst (render_seq f l)) fh)) uri val, w')).
Proof.
  induction l as [|x l IH]; intros Hbody fr fh uri val w.
  - exists w. cbn. rewrite ?fappend_empty. reflexivity.
  - destruct (Hbody x (or_introl eq_refl) fr fh uri val w) as [w1 H1].
    cbn [for_each render_seq]. unfold bind. rewrite H1.
    destruct (f x) as [bx [bad|]]; cbn [fst snd out_of].
    + exists w1. reflexivity.
    + destruct (IH (fun y Hy => Hbody y (or_intror Hy)) fr (fappend bx fh) uri val w1)
        as [w2 H2].
      exists w2. rewrite H2. destruct (render_seq f l) as [bl el]. cbn [fst snd].
      rewrite fappend_append. reflexivity.
Qed.

Lemma prt_value_render (E : Env) (fuel : nat) :
  forall v,
    stream_free v = true ->
    depth v <= fuel ->
    forall fr fh uri val w, exists w',
      TextFileStream.prt_value E fuel v (TextFileStream.mk fr (Some fh) uri val, w)
      = (out_of (snd (render v)),
         (TextFileStream.mk fr (Some (fappend (fst (render v)) fh)) uri val, w')).
Proof.
  induction fuel as [|fuel IH]; intros v Hsf Hd fr fh uri val w.
  { destruct v as [[t n|t o]| | | |]; cbn in Hd; lia. }
  destruct v as [[t name|t oset]|strs|nums|vals|id].
  - (* a node *)
    exists (mkWorld (trace w ++ [EFprintf (String.append " " (c_str name))])
                    (pulled w) (cached w)).
    destruct w as [tr pl ca]. destruct t; reflexivity.
  - (* a link *)
    assert (Hmem : forall x, In x (map Atomic oset) ->
              forall fr fh uri val w, exists w',
                TextFileStream.prt_value E fuel x (TextFileStream.mk fr (Some fh) uri val, w)
                = (out_of (snd (render x)),
                   (TextFileStream.mk fr (Some (fappend (fst (render x)) fh)) uri val, w'))).
    { intros x Hx. apply in_map_iff in Hx. destruct Hx as (a & <- & Ha).
      apply IH; [reflexivity|].
      cbn [depth atom_depth] in *.
      pose proof (height_seq_bound atom_depth oset a Ha). lia. }
    destruct t.
    + destruct (for_each_render _ render (map Atomic oset) Hmem fr fh uri val w)
        as [w' H].
      exists w'. rewrite render_seq_map in H. exact H.
    + destruct (for_each_render _ render (map Atomic oset) Hmem fr fh uri val w)
        as [w' H].
      exists w'. rewrite render_seq_map in H. exact H.
    + exists w. cbn. rewrite ?fappend_empty. reflexivity.
    + exists w. cbn. rewrite ?fappend_empty. reflexivity.
  - (* text *)
    exists (mkWorld (trace w ++ map (fun str => EFprintf (c_str str)) strs)
                    (pulled w) (cached w)).
    destruct w as [tr pl ca].
    cbn [TextFileStream.prt_value is_type get_type isA Type_eqb orb StringValue_value].
    rewrite for_each_fprintf. reflexivity.
  - (* a value that is not written *)
    exists w. cbn. rewrite ?fappend_empty. reflexivity.
  - (* a container *)
    cbn [TextFileStream.prt_value is_type get_type isA Type_eqb orb value].
    unfold bind at 1, ret at 1.
    apply for_each_render. intros x Hx. apply IH.
    + cbn [stream_free] in Hsf. rewrite forallb_forall in Hsf. apply Hsf, Hx.
    + cbn [depth] in Hd. pose proof (height_seq_bound depth vals x Hx). lia.
  - discriminate Hsf.
Qed.

(** X1.  For a value that holds no streaming value and in which nothing
    is refused, [prt_value] with fuel no less than the nesting depth
    returns normally (it neither throws nor runs out of fuel) and the
    handle has taken exactly the flattened text of the value: the
    characters of the strings and a space and the name for each node, in
    depth-first order, appended to what was written before. *)
Theorem serializer_writes_flattened_text
        (E : Env) (fuel : nat) (v : Value) (s : TextFileStream.state) (fh : FILE) :
  stream_free v = true ->
  depth v <= fuel ->
  TextFileStream._fh (fst s) = Some fh ->
  snd (render v) = None ->
  let r := TextFileStream.prt_value E fuel v s in
  fst r = Ret tt
  /\ TextFileStream._fh (fst (snd r)) = Some (fappend (fst (render v)) fh)
  /\ sink (snd r) = Some (String.append (written fh) (fst (render v))).
Proof.
  intros Hsf Hd Hh Hok r. subst r.
  destruct s as [[fr h uri val] w]. cbn [fst TextFileStream._fh] in Hh. subst h.
  destruct (@prt_value_render E fuel v Hsf Hd fr fh uri val w) as [w' H].
  rewrite H, Hok. split; [reflexivity|]. split; [reflexivity|].
  unfold sink. cbn [fst snd TextFileStream._fh option_map].
  rewrite written_fappend. reflexivity.
Qed.

Lemma serializer_writes_flattened_text_witness :
  let v := LinkValue [StringValue ["ab"; "cd"];
                      LinkValue [Atomic (Link LSet [Node NItem "foo"; Node NConcept "bar"])];
                      StringValue []] in
  stream_free v = true /\ depth v <= 4 /\ snd (render v) = None
  /\ sink (snd (TextFileStream.prt_value sample_env 4 v (open_file, quiet_world)))
     = Some "abcd foo bar".
Proof.
  intro v. split; [reflexivity|]. split; [cbn; lia|]. split; [reflexivity|].
  exact (proj2 (proj2 (@serializer_writes_flattened_text sample_env 4 v
                         (open_file, quiet_world) (mkFILE two_lines EmptyString)
                         eq_refl (le_n 4) eq_refl eq_refl))).
Defined.



Lemma bind_ret_tt {S : Type} (m : M S unit) (s : S) :
  bind m (fun _ => ret tt) s = m s.
Proof. unfold bind, ret. destruct (m s) as [[[]|e| |] s']; reflexivity. Qed.

Lemma bind_assoc {S A B C : Type} (m : M S A) (k : A -> M S B) (h : B -> M S C) (s : S) :
  bind (bind m k) h s = bind m (fun a => bind (k a) h) s.
Proof. unfold bind. destruct (m s) as [[a|e| |] s']; reflexivity. Qed.

Lemma bind_ext {S A B : Type} (m : M S A) (k k' : A -> M S B) (s : S) :
  (forall a s', k a s' = k' a s') -> bind m k s = bind m k' s.
Proof. intro H. unfold bind. destruct (m s) as [[a|e| |] s']; [apply H | | |]; reflexivity. Qed.

Lemma for_each_app {S A : Type} (body : A -> M S unit) (a b : list A) (s : S) :
  for_each body (a ++ b) s = bind (for_each body a) (fun _ => for_each body b) s.
Proof.
  revert s. induction a as [|x a IH]; intro s; [reflexivity|].
  cbn [app for_each]. rewrite bind_assoc. apply bind_ext. intros _ s'. apply IH.
Qed.

(** X3.  Nesting leaves no mark: a container of two containers is
    printed exactly as one container holding the members of both is (the
    same outcome and the same state, whatever the members are and whether
    or not the handle is open), the nested form taking one more level of
    recursion; and a ListLink, a SetLink and a container of the same
    members are printed alike. *)
Theorem serializer_ignores_nesting
        (E : Env) (fuel : nat) (a b : list Value) (oset : list Atom)
        (s : TextFileStream.state) :
  TextFileStream.prt_value E (S (S fuel)) (LinkValue [LinkValue a; LinkValue b]) s
  = TextFileStream.prt_value E (S fuel) (LinkValue (a ++ b)) s
  /\ TextFileStream.prt_value E fuel (Atomic (Link LList oset)) s
     = TextFileStream.prt_value E fuel (Atomic (Link LSet oset)) s
  /\ TextFileStream.prt_value E fuel (Atomic (Link LList oset)) s
     = TextFileStream.prt_value E fuel (LinkValue (map Atomic oset)) s.
Proof.
  split; [|split].
  - change (TextFileStream.prt_value E (S (S fuel)) (LinkValue [LinkValue a; LinkValue b]) s)
      with (for_each (TextFileStream.prt_value E (S fuel)) [LinkValue a; LinkValue b] s).
    change (TextFileStream.prt_value E (S fuel) (LinkValue (a ++ b)) s)
      with (for_each (TextFileStream.prt_value E fuel) (a ++ b) s).
    rewrite for_each_app. cbn [for_each].
    change (TextFileStream.prt_value E (S fuel) (LinkValue a))
      with (for_each (TextFileStream.prt_value E fuel) a).
    change (TextFileStream.prt_value E (S fuel) (LinkValue b))
      with (for_each (TextFileStream.prt_value E fuel) b).
    apply bind_ext. intros _ s'. apply bind_ret_tt.
  - destruct fuel; reflexivity.
  - destruct fuel; reflexivity.
Qed.

(* ================================================================== *)
(** ** What a write may touch                                          *)
(* ================================================================== *)

Lemma printed_app (a b : list event) :
  printed (a ++ b) = String.append (printed a) (printed b).
Proof.
  induction a as [|e a IH]; [reflexivity|].
  destruct e; cbn [app printed]; rewrite IH; try reflexivity.
  rewrite append_assoc. reflexivity.
Qed.

Lemma option_map_fappend_empty (h : option FILE) :
  option_map (fappend EmptyString) h = h.
Proof. destruct h as [fh|]; reflexivity. Qed.

Lemma adds_only_refl (P : event -> bool) (s : TextFileStream.state) : adds_only P s s.
Proof.
  exists []. rewrite app_nil_r. cbn [printed forallb].
  rewrite option_map_fappend_empty. repeat split.
Qed.

Lemma adds_only_trans (P : event -> bool) (a b c : TextFileStream.state) :
  adds_only P a b -> adds_only P b c -> adds_only P a c.
Proof.
  intros (t1 & T1 & P1 & H1 & F1 & U1 & V1) (t2 & T2 & P2 & H2 & F2 & U2 & V2).
  exists (t1 ++ t2). rewrite T2, T1, app_assoc, forallb_app, P1, P2.
  repeat split; try congruence.
  rewrite H2, H1, printed_app.
  destruct (TextFileStream._fh (fst a)) as [fh|]; [|reflexivity].
  cbn [option_map]. rewrite fappend_append. reflexivity.
Qed.

Lemma adds_only_weaken (P Q : event -> bool) (a b : TextFileStream.state) :
  (forall e, P e = true -> Q e = true) -> adds_only P a b -> adds_only Q a b.
Proof.
  intros HPQ (tl & T & HP & rest). exists tl. split; [exact T|]. split; [|exact rest].
  rewrite forallb_forall in *. intros e He. apply HPQ, HP, He.
Qed.

Create HintDb effects.
#[local] Hint Resolve adds_only_refl adds_only_trans : effects.

Lemma ser_fprintf (bytes : string) :
  respects (adds_only serializer_event) (TextFileStream.fprintf bytes).
Proof.
  intros [[fr [fh|] uri v] w]; [|apply adds_only_refl].
  exists [EFprintf bytes]. cbn. rewrite append_empty_r. repeat split.
Qed.

Lemma ser_value (E : Env) (v : Value) :
  respects (adds_only serializer_event) (value (O := TextFileStream.t) E v).
Proof.
  destruct v; try (intro s; apply adds_only_refl).
  intros [o w]. exists [EPull id]. cbn [printed].
  rewrite option_map_fappend_empty. repeat split.
Qed.

#[local] Hint Resolve ser_fprintf ser_value : effects.

Lemma ser_prt_value (E : Env) (fuel : nat) :
  forall content, respects (adds_only serializer_event) (TextFileStream.prt_value E fuel content).
Proof.
  induction fuel as [|fuel IH]; intro content; cbn [TextFileStream.prt_value].
  - apply respects_diverge; auto with effects.
  - destruct (is_type content STRING_VALUE).
    { apply respects_for_each; eauto with effects. }
    destruct (is_type content NODE); [auto with effects|].
    destruct (is_type content LINK_VALUE).
    { apply respects_bind; eauto with effects.
      intro vals. apply respects_for_each; eauto with effects. }
    cbv zeta.
    destruct (Type_eqb LIST_LINK (get_type content) || Type_eqb SET_LINK (get_type content)).
    + apply respects_for_each; eauto with effects.
    + apply respects_throw; auto with effects.
Qed.

Lemma serializer_in_drain (e : event) : serializer_event e = true -> drain_event e = true.
Proof. destruct e; intro H; try discriminate H; reflexivity. Qed.

Lemma drain_prt_value (E : Env) (fuel : nat) (content : Value) :
  respects (adds_only drain_event) (TextFileStream.prt_value E fuel content).
Proof.
  intro s. eapply adds_only_weaken; [exact serializer_in_drain | apply ser_prt_value].
Qed.

Lemma drain_value (E : Env) (v : Value) :
  respects (adds_only drain_event) (value (O := TextFileStream.t) E v).
Proof.
  intro s. eapply adds_only_weaken; [exact serializer_in_drain | apply ser_value].
Qed.

Lemma drain_fflush : respects (adds_only drain_event) TextFileStream.fflush.
Proof.
  intros [[fr [fh|] uri v] w]; [|apply adds_only_refl].
  exists [EFflush]. cbn [fst snd printed option_map TextFileStream._fh].
  rewrite ?fappend_empty. repeat split.
Qed.

#[local] Hint Resolve drain_prt_value drain_value drain_fflush : effects.

Lemma drain_print_batch (E : Env) (depth : nat) (vals : list Value) :
  forall n, respects (adds_only drain_event) (TextFileStream.print_batch E depth vals n).
Proof.
  induction vals as [|v vals IH]; intro n; cbn [TextFileStream.print_batch].
  - apply respects_ret; auto with effects.
  - intro s. destruct (is_empty_link (snd s) v).
    + apply IH.
    + apply respects_bind; eauto with effects.
Qed.

Lemma drain_drain (E : Env) (depth fuel : nat) (lvp : Value) :
  respects (adds_only drain_event) (TextFileStream.drain E depth fuel lvp).
Proof.
  induction fuel as [|fuel IH]; cbn [TextFileStream.drain].
  - apply respects_diverge; auto with effects.
  - apply respects_bind; eauto with effects. intro vals.
    destruct (Nat.eqb 0 (length vals)); [apply respects_ret; auto with effects|].
    apply respects_bind; eauto using drain_print_batch with effects. intro n.
    apply respects_bind; eauto with effects. intros _.
    destruct (Nat.eqb 0 n); [apply respects_ret; auto with effects | exact IH].
Qed.

(** The part of [write_out] that comes after the content is known. *)
Lemma drain_write_body (E : Env) (fuel : nat) (content : Value) :
  respects (adds_only drain_event)
    (if negb (is_type content LINK_STREAM_VALUE)
     then bind (TextFileStream.prt_value E fuel content)
               (fun _ => bind TextFileStream.fflush (fun _ => ret content))
     else bind (TextFileStream.drain E fuel fuel content) (fun _ => ret content)).
Proof.
  destruct (negb (is_type content LINK_STREAM_VALUE)).
  - apply respects_bind; eauto with effects. intros _.
    apply respects_bind; eauto with effects. intros _.
    apply respects_ret; auto with effects.
  - apply respects_bind; eauto using drain_drain with effects. intros _.
    apply respects_ret; auto with effects.
Qed.

(** [write_out] by cases on the handle and on the evaluation. *)
Lemma write_out_cases (E : Env) (fuel : nat) (cref : Atom)
      (o : TextFileStream.t) (w : World) :
  let body := fun content : Value =>
    if negb (is_type content LINK_STREAM_VALUE)
    then bind (TextFileStream.prt_value E fuel content)
              (fun _ => bind TextFileStream.fflush (fun _ => ret content))
    else bind (TextFileStream.drain E fuel fuel content) (fun _ => ret content) in
  let logged := mkWorld (trace w ++ [EExecute cref]) (pulled w) (cached w) in
  TextFileStream.write_out E fuel cref (o, w)
  = match TextFileStream._fh o with
    | None => (Throw StreamNotOpen, (o, w))
    | Some _ =>
        if is_executable E cref then
          match execute E cref with
          | None => (Throw (ExpectingSomething cref), (o, logged))
          | Some content => body content (o, logged)
          end
        else body (Atomic cref) (o, w)
    end.
Proof.
  intros body logged. unfold TextFileStream.write_out.
  unfold bind at 1, get_obj. cbn [fst snd].
  destruct (TextFileStream._fh o) as [fh|]; [|reflexivity].
  unfold bind at 1.
  destruct (is_executable E cref); [|reflexivity].
  unfold bind at 1, log. cbn [fst snd].
  destruct (execute E cref) as [content|]; reflexivity.
Qed.

Lemma write_out_effects (E : Env) (fuel : nat) (cref : Atom) (s : TextFileStream.state) :
  exists tl,
    trace (snd (snd (TextFileStream.write_out E fuel cref s)))
    = trace (snd s) ++ (if evaluates E cref s then [EExecute cref] else []) ++ tl
    /\ forallb drain_event tl = true
    /\ TextFileStream._fh (fst (snd (TextFileStream.write_out E fuel cref s)))
       = option_map (fappend (printed tl)) (TextFileStream._fh (fst s))
    /\ TextFileStream._fresh (fst (snd (TextFileStream.write_out E fuel cref s)))
       = TextFileStream._fresh (fst s)
    /\ TextFileStream._uri (fst (snd (TextFileStream.write_out E fuel cref s)))
       = TextFileStream._uri (fst s)
    /\ TextFileStream._value (fst (snd (TextFileStream.write_out E fuel cref s)))
       = TextFileStream._value (fst s).
Proof.
  destruct s as [o w]. unfold evaluates. cbn [fst snd].
  rewrite write_out_cases. cbv zeta.
  destruct (TextFileStream._fh o) as [fh|] eqn:Hh.
  2:{ exists []. cbn [fst snd app option_map printed forallb].
      rewrite app_nil_r. repeat split. exact Hh. }
  destruct (is_executable E cref).
  - destruct (execute E cref) as [content|].
    + destruct (drain_write_body E fuel content
                  (o, mkWorld (trace w ++ [EExecute cref]) (pulled w) (cached w)))
        as (tl & T & HP & Hf & rest).
      exists tl. cbn [fst snd trace] in *. rewrite T, <- app_assoc, Hf, Hh.
      split; [reflexivity|]. split; [exact HP|]. split; [reflexivity|]. exact rest.
    + exists []. cbn [fst snd trace app option_map printed forallb].
      rewrite Hh, ?fappend_empty. repeat split.
  - destruct (drain_write_body E fuel (Atomic cref) (o, w))
      as (tl & T & HP & Hf & rest).
    exists tl. cbn [fst snd app] in *. rewrite T, Hf, Hh.
    split; [reflexivity|]. split; [exact HP|]. split; [reflexivity|]. exact rest.
Qed.

Lemma count_events_app (P : event -> bool) (a b : list event) :
  count_events P (a ++ b) = count_events P a + count_events P b.
Proof. unfold count_events. rewrite filter_app, length_app. reflexivity. Qed.

Lemma count_events_none (P Q : event -> bool) (tl : list event) :
  (forall e, P e = true -> Q e = false) ->
  forallb P tl = true -> count_events Q tl = 0.
Proof.
  intros HPQ H. unfold count_events. induction tl as [|e tl IH]; [reflexivity|].
  cbn [forallb] in H. apply andb_true_iff in H. destruct H as [He Htl].
  cbn [filter]. rewrite (HPQ e He). apply IH, Htl.
Qed.

Lemma executions_none (tl : list event) :
  forallb drain_event tl = true -> executions tl = 0.
Proof.
  induction tl as [|e tl IH]; [reflexivity|]. cbn [forallb]. intro H.
  apply andb_true_iff in H. destruct H as [He Htl].
  destruct e; try discriminate He; cbn [executions]; apply IH, Htl.
Qed.

(** X4.  Whatever the content, the fuel and the outcome, [write_out]
    on a file stream only writes: it issues no [fgets] and no [fclose],
    leaves the freshness flag, the URI and the current value as they were,
    keeps an open handle open and a null one null, and the handle has
    taken exactly the bytes of the [fprintf] calls made, in order, the way
    a file opened in append mode takes them: after the last of the old
    content, with the position left at the new end as soon as one byte has
    been added. *)
Theorem write_out_only_writes
        (E : Env) (fuel : nat) (cref : Atom) (s : TextFileStream.state) :
  let s' := snd (TextFileStream.write_out E fuel cref s) in
  (exists tl,
      trace (snd s') = trace (snd s) ++ tl
      /\ TextFileStream._fh (fst s')
         = option_map (fappend (printed tl)) (TextFileStream._fh (fst s))
      /\ option_map written (TextFileStream._fh (fst s'))
         = option_map (fun fh => String.append (written fh) (printed tl))
                      (TextFileStream._fh (fst s)))
  /\ count_events is_fgets (trace (snd s')) = count_events is_fgets (trace (snd s))
  /\ count_events is_fclose (trace (snd s')) = count_events is_fclose (trace (snd s))
  /\ TextFileStream._fresh (fst s') = TextFileStream._fresh (fst s)
  /\ TextFileStream._uri (fst s') = TextFileStream._uri (fst s)
  /\ TextFileStream._value (fst s') = TextFileStream._value (fst s).
Proof.
  intro s'. subst s'.
  destruct (write_out_effects E fuel cref s) as (tl & T & HP & Hf & Hfr & Hu & Hv).
  assert (Hpre : forall Q : event -> bool,
             Q (EExecute cref) = false ->
             (forall e, drain_event e = true -> Q e = false) ->
             count_events Q (trace (snd (snd (TextFileStream.write_out E fuel cref s))))
             = count_events Q (trace (snd s))).
  { intros Q Hx HQ. rewrite T, !count_events_app, (@count_events_none drain_event Q tl HQ HP).
    destruct (evaluates E cref s); unfold count_events; cbn [filter];
      rewrite ?Hx; cbn [length]; lia. }
  assert (Hpr : printed ((if evaluates E cref s then [EExecute cref] else []) ++ tl)
                = printed tl).
  { destruct (evaluates E cref s); reflexivity. }
  split; [|split; [|split; [|split; [|split]]]]; try assumption.
  - exists ((if evaluates E cref s then [EExecute cref] else []) ++ tl).
    split; [exact T|]. rewrite Hf, Hpr. split; [reflexivity|].
    destruct (TextFileStream._fh (fst s)) as [fh|]; [|reflexivity].
    cbn [option_map]. rewrite written_fappend. reflexivity.
  - apply Hpre; [reflexivity|]. intros e He. destruct e; try discriminate He; reflexivity.
  - apply Hpre; [reflexivity|]. intros e He. destruct e; try discriminate He; reflexivity.
Qed.

(** X5.  [write_out] calls the evaluator at most once: exactly once
    when the handle is open and the reference is executable, and then
    before anything is pulled, printed or flushed; otherwise not at all.
    Nothing that is written (not even a streaming value met while
    draining) is evaluated again. *)
Theorem write_out_evaluates_at_most_once
        (E : Env) (fuel : nat) (cref : Atom) (s : TextFileStream.state) :
  let s' := snd (TextFileStream.write_out E fuel cref s) in
  executions (trace (snd s'))
  = executions (trace (snd s)) + (if evaluates E cref s then 1 else 0)
  /\ exists tl,
       trace (snd s')
       = trace (snd s) ++ (if evaluates E cref s then [EExecute cref] else []) ++ tl
       /\ executions tl = 0.
Proof.
  intro s'. subst s'.
  destruct (write_out_effects E fuel cref s) as (tl & T & HP & _).
  split.
  - rewrite T, !executions_app, (@executions_none tl HP).
    destruct (evaluates E cref s); cbn [executions]; lia.
  - exists tl. split; [exact T | apply executions_none, HP].
Qed.

(* ================================================================== *)
(** ** Draining a stream of text                                       *)
(* ================================================================== *)

Lemma print_batch_text (E : Env) (d : nat) (batch : list Value) :
  forallb is_text batch = true ->
  forall n fr fh uri val tr pl ca,
    TextFileStream.print_batch E (S d) batch n
      (TextFileStream.mk fr (Some fh) uri val, mkWorld tr pl ca)
    = (Ret (n + length batch),
       (TextFileStream.mk fr (Some (fappend (texts_of batch) fh)) uri val,
        mkWorld (tr ++ text_events batch) pl ca)).
Proof.
  induction batch as [|v batch IH]; intros Ht n fr fh uri val tr pl ca.
  - cbn. rewrite Nat.add_0_r, app_nil_r, ?fappend_empty. reflexivity.
  - cbn [forallb] in Ht. apply andb_true_iff in Ht. destruct Ht as [Hv Hb].
    destruct v as [a|strs|nums|vals|id]; try discriminate Hv.
    cbn [TextFileStream.print_batch]. unfold is_empty_link.
    cbn [is_type get_type isA Type_eqb orb andb].
    unfold bind at 1.
    cbn [TextFileStream.prt_value is_type get_type isA Type_eqb orb StringValue_value].
    rewrite for_each_fprintf. rewrite (IH Hb).
    unfold texts_of, text_events.
    cbn [map concat_strings fold_right flat_map StringValue_value length fappend
         unread written].
    rewrite fappend_append, <- app_assoc, Nat.add_succ_r. reflexivity.
Qed.

Lemma drain_text_stream (E : Env) (d : nat) (id : StreamId) (k : nat) :
  forall fr fh uri val w,
    (forall i, i < k ->
       upstream E id (pulled w id + i) <> []
       /\ forallb is_text (upstream E id (pulled w id + i)) = true) ->
    upstream E id (pulled w id + k) = [] ->
    forall fuel, k < fuel ->
      exists w',
        TextFileStream.drain E (S d) fuel (LinkStreamValue id)
          (TextFileStream.mk fr (Some fh) uri val, w)
        = (Ret tt,
           (TextFileStream.mk fr (Some (fappend (stream_text E id (pulled w id) k) fh))
                              uri val, w'))
        /\ pulled w' id = pulled w id + S k.
Proof.
  induction k as [|k IH]; intros fr fh uri val w Hb He fuel Hf;
    (destruct fuel as [|fuel]; [lia|]).
  - rewrite Nat.add_0_r in He.
    cbn [TextFileStream.drain value]. unfold bind at 1, pull. cbn [fst snd].
    rewrite He. cbn [length Nat.eqb stream_text]. rewrite ?fappend_empty.
    eexists. split; [reflexivity|]. cbn [pulled]. unfold upd.
    rewrite Nat.eqb_refl. lia.
  - destruct (Hb 0 ltac:(lia)) as [Hne Htx]. rewrite Nat.add_0_r in Hne, Htx.
    destruct w as [tr pl ca]. cbn [pulled] in *.
    cbn [TextFileStream.drain value]. unfold bind at 1, pull. cbn [fst snd trace pulled cached].
    destruct (upstream E id (pl id)) as [|v batch] eqn:Hbatch; [congruence|].
    cbn [length Nat.eqb]. unfold bind at 1.
    rewrite (print_batch_text E d (v :: batch) Htx).
    unfold bind at 1, TextFileStream.fflush. unfold bind at 1, get_obj.
    cbn [fst snd TextFileStream._fh]. unfold log. cbn [fst snd trace pulled cached].
    cbn [Nat.add length Nat.eqb].
    match goal with
    | |- context [TextFileStream.drain _ _ _ _ (_, ?w2)] =>
        destruct (IH fr (fappend (texts_of (v :: batch)) fh) uri val w2) with (fuel := fuel)
          as (w' & Hd & Hp)
    end.
    + intros i Hi. cbn [pulled]. unfold upd. rewrite Nat.eqb_refl.
      replace (S (pl id) + i) with (pl id + S i) by lia. apply Hb. lia.
    + cbn [pulled]. unfold upd. rewrite Nat.eqb_refl.
      replace (S (pl id) + k) with (pl id + S k) by lia. exact He.
    + lia.
    + exists w'. rewrite Hd. cbn [pulled] in *. unfold upd in *.
      rewrite Nat.eqb_refl in *. cbn [stream_text]. rewrite Hbatch, fappend_append.
      split; [reflexivity|]. lia.
Qed.

(** X6.  The ordinary course of the drain loop.  The reference
    evaluates to a streaming value whose next [k] batches are non-empty
    and made of StringValues, and whose batch after those is empty.  Then
    [write_out], given more than [k] turns of fuel, returns the stream
    normally after exactly [k + 1] pulls, and the handle has taken the
    text of the [k] batches in order, with nothing between them. *)
Theorem write_out_drains_text_stream
        (E : Env) (fuel k : nat) (cref : Atom) (id : StreamId)
        (s : TextFileStream.state) (fh : FILE) :
  TextFileStream._fh (fst s) = Some fh ->
  is_executable E cref = true ->
  execute E cref = Some (LinkStreamValue id) ->
  (forall i, i < k ->
     upstream E id (pulled (snd s) id + i) <> []
     /\ forallb is_text (upstream E id (pulled (snd s) id + i)) = true) ->
  upstream E id (pulled (snd s) id + k) = [] ->
  k < fuel ->
  let r := TextFileStream.write_out E fuel cref s in
  fst r = Ret (LinkStreamValue id)
  /\ TextFileStream._fh (fst (snd r))
     = Some (fappend (stream_text E id (pulled (snd s) id) k) fh)
  /\ sink (snd r)
     = Some (String.append (written fh) (stream_text E id (pulled (snd s) id) k))
  /\ pulled (snd (snd r)) id = pulled (snd s) id + S k.
Proof.
  intros Hh Hx Hc Hb He Hf r. subst r.
  destruct s as [[fr h uri val] w]. cbn [fst snd TextFileStream._fh] in *. subst h.
  rewrite write_out_cases. cbv zeta. cbn [TextFileStream._fh].
  rewrite Hx, Hc. cbn [is_type get_type isA Type_eqb orb negb].
  destruct fuel as [|fuel]; [lia|].
  destruct (@drain_text_stream E fuel id k fr fh uri val
              (mkWorld (trace w ++ [EExecute cref]) (pulled w) (cached w))
              Hb He (S fuel) Hf) as (w' & Hd & Hp).
  unfold bind. rewrite Hd. cbn [fst snd ret TextFileStream._fh pulled] in *.
  unfold ret, sink. cbn [fst snd TextFileStream._fh option_map].
  rewrite written_fappend.
  split; [reflexivity|]. split; [reflexivity|]. split; [reflexivity|]. exact Hp.
Qed.

Lemma write_out_drains_text_stream_witness :
  let cref := Link LExecutionOutput [Node NConcept "once"] in
  let r := TextFileStream.write_out sample_env 2 cref (open_file, quiet_world) in
  fst r = Ret (LinkStreamValue 2)
  /\ sink (snd r) = Some "hello"
  /\ pulled (snd (snd r)) 2 = 2.
Proof.
  intros cref r.
  destruct (@write_out_drains_text_stream sample_env 2 1 cref 2
              (open_file, quiet_world) (mkFILE two_lines EmptyString)
              eq_refl eq_refl eq_refl) as (Hr & _ & Hs & Hp).
  - intros i Hi. assert (i = 0) by lia. subst i. split; [discriminate|reflexivity].
  - reflexivity.
  - lia.
  - subst r. split; [exact Hr|]. split; [exact Hs | exact Hp].
Defined.

(* ================================================================== *)
(** ** Reading line by line                                            *)
(* ================================================================== *)

Lemma read_line_split (n : nat) (s : string) :
  String.append (fst (read_line n s)) (snd (read_line n s)) = s.
Proof.
  revert s. induction n as [|n IH]; intro s; [reflexivity|].
  destruct s as [|c s]; [reflexivity|]. cbn [read_line].
  destruct (Ascii.eqb c NL); [reflexivity|].
  specialize (IH s). destruct (read_line n s) as [l r]. cbn [fst snd] in *.
  cbn [String.append]. rewrite IH. reflexivity.
Qed.

Lemma read_line_length (n : nat) (s : string) :
  String.length (fst (read_line n s)) <= n.
Proof.
  revert s. induction n as [|n IH]; intro s; [cbn; lia|].
  destruct s as [|c s]; [cbn; lia|]. cbn [read_line].
  destruct (Ascii.eqb c NL); [cbn; lia|].
  specialize (IH s). destruct (read_line n s) as [l r]. cbn [fst String.length] in *. lia.
Qed.

Lemma read_line_progress (n : nat) (c : ascii) (s : string) :
  1 <= String.length (fst (read_line (S n) (String c s))).
Proof.
  cbn [read_line]. destruct (Ascii.eqb c NL); [cbn; lia|].
  destruct (read_line n s) as [l r]. cbn [fst String.length]. lia.
Qed.

Lemma length_append (a b : string) :
  String.length (String.append a b) = String.length a + String.length b.
Proof. induction a as [|c a IH]; cbn; [|rewrite IH]; reflexivity. Qed.

Lemma read_line_shape (n : nat) (s : string) :
  let l := fst (read_line n s) in
  (exists body, l = String.append body (String NL EmptyString) /\ newline_free body = true)
  \/ (newline_free l = true /\ (String.length l = n \/ snd (read_line n s) = EmptyString)).
Proof.
  revert s. induction n as [|n IH]; intro s.
  { right. cbn. split; [reflexivity | left; reflexivity]. }
  destruct s as [|c s].
  { right. cbn. split; [reflexivity | right; reflexivity]. }
  cbn [read_line]. destruct (Ascii.eqb c NL) eqn:Hc.
  - left. exists EmptyString. apply Ascii.eqb_eq in Hc. subst c. split; reflexivity.
  - specialize (IH s). destruct (read_line n s) as [l r]. cbn [fst snd] in *.
    destruct IH as [(body & -> & Hb) | (Hl & Hn)].
    + left. exists (String c body). split; [reflexivity|]. cbn. rewrite Hc, Hb. reflexivity.
    + right. split; [cbn; rewrite Hc, Hl; reflexivity|].
      destruct Hn as [Hn|Hn]; [left; cbn; lia | right; exact Hn].
Qed.

Lemma fgets_some (fh : FILE) (c : ascii) (rest : string) :
  unread fh = String c rest ->
  fgets BUFSZ fh
  = (Some (fst (read_line (BUFSZ - 1) (unread fh))),
     mkFILE (snd (read_line (BUFSZ - 1) (unread fh))) (written fh)).
Proof.
  intro H. unfold fgets. rewrite H.
  destruct (read_line (BUFSZ - 1) (String c rest)); reflexivity.
Qed.

Lemma fgets_none (fh : FILE) :
  unread fh = EmptyString -> fgets BUFSZ fh = (None, fh).
Proof. intro H. unfold fgets. rewrite H. reflexivity. Qed.

Lemma no_nul_append (a b : string) :
  no_nul (String.append a b) = no_nul a && no_nul b.
Proof.
  induction a as [|c a IH]; [reflexivity|]. cbn. rewrite IH, andb_assoc. reflexivity.
Qed.

(** X7.  One [update] on an open handle with input waiting (on a file
    stream past its first call, on a terminal stream always) takes one
    chunk off the front of the input: at least one and at most 4079
    characters, ending at the first newline if there is one within reach.
    The chunk and what stays unread make up exactly what was unread
    before, the value is the single ItemNode named by the chunk (as a C
    string), and nothing is written. *)
Theorem update_takes_one_bounded_chunk (fh : FILE) (c : ascii) (rest : string) :
  unread fh = String c rest ->
  let l := fst (read_line (BUFSZ - 1) (unread fh)) in
  let r := snd (read_line (BUFSZ - 1) (unread fh)) in
  (forall uri v w,
      TextFileStream.update (TextFileStream.mk false (Some fh) uri v, w)
      = (Ret tt,
         (TextFileStream.mk false (Some (mkFILE r (written fh))) uri
                            [createNode NItem (c_str l)],
          mkWorld (trace w ++ [EFgets]) (pulled w) (cached w))))
  /\ (forall pid v w,
      TerminalStream.update (TerminalStream.mk (Some fh) pid v, w)
      = (Ret tt,
         (TerminalStream.mk (Some (mkFILE r (written fh))) pid
                            [createNode NItem (c_str l)],
          mkWorld (trace w ++ [EFgets]) (pulled w) (cached w))))
  /\ String.append l r = unread fh
  /\ 1 <= String.length l <= 4079
  /\ ((exists body, l = String.append body (String NL EmptyString)
                    /\ newline_free body = true)
      \/ (newline_free l = true /\ (String.length l = 4079 \/ r = EmptyString))).
Proof.
  intros Hu l r. pose proof (fgets_some fh Hu) as Hg. fold l r in Hg.
  split; [|split; [|split; [|split]]].
  - intros uri v w. rewrite file_update_read, Hg. reflexivity.
  - intros pid v w. unfold TerminalStream.update, bind, get_obj, set_obj, log.
    cbn [fst snd TerminalStream._fh]. rewrite Hg. reflexivity.
  - apply read_line_split.
  - subst l. change (BUFSZ - 1) with (S 4078). split.
    + rewrite Hu. apply read_line_progress.
    + apply read_line_length.
  - subst l r. change (BUFSZ - 1) with 4079. apply read_line_shape.
Qed.

Lemma update_takes_one_bounded_chunk_witness :
  TextFileStream.update (open_file, quiet_world)
  = (Ret tt,
     (TextFileStream.mk false
        (Some (mkFILE (String.append "beta" (String NL EmptyString)) EmptyString))
        "file:///tmp/notes.txt"
        [Atomic (Node NItem (String.append "alpha" (String NL EmptyString)))],
      mkWorld [EFgets] (fun _ => 0) (fun _ => [])))
  /\ TerminalStream.update (typing_terminal, quiet_world)
  = (Ret tt,
     (TerminalStream.mk (Some (mkFILE "pwd" EmptyString)) 4242
        [Atomic (Node NItem (String.append "ls" (String NL EmptyString)))],
      mkWorld [EFgets] (fun _ => 0) (fun _ => []))).
Proof.
  split.
  - exact (proj1 (@update_takes_one_bounded_chunk (mkFILE two_lines EmptyString)
                    "a"%char _ eq_refl) "file:///tmp/notes.txt" [] quiet_world).
  - exact (proj1 (proj2 (@update_takes_one_bounded_chunk
                    (mkFILE (String.append "ls" (String NL "pwd")) EmptyString)
                    "l"%char _ eq_refl)) 4242%Z [] quiet_world).
Defined.

Lemma read_rest_shorter (u : string) (c : ascii) (rest : string) :
  u = String c rest ->
  String.length (snd (read_line (BUFSZ - 1) u)) < String.length u.
Proof.
  intro Hu.
  pose proof (read_line_split (BUFSZ - 1) u) as Hsplit.
  apply (f_equal String.length) in Hsplit. rewrite length_append in Hsplit.
  assert (Hprog : 1 <= String.length (fst (read_line (BUFSZ - 1) u))).
  { rewrite Hu. change (BUFSZ - 1) with (S 4078). apply read_line_progress. }
  lia.
Qed.

Lemma repeat_S {A : Type} (x : A) (n : nat) : repeat x (S n) = x :: repeat x n.
Proof. reflexivity. Qed.

Lemma file_run_cons (E : Env) (c : file_call) (cs : list file_call)
      (s : TextFileStream.state) :
  file_run E (c :: cs) s = file_run E cs (file_perform E c s).
Proof. reflexivity. Qed.

Lemma file_reads_to_end (E : Env) (n : nat) :
  forall fh uri v w,
    String.length (unread fh) <= n ->
    let s := file_run E (repeat FUpdate (S n))
                      (TextFileStream.mk false (Some fh) uri v, w) in
    TextFileStream._fh (fst s) = None
    /\ TextFileStream._value (fst s) = []
    /\ count_events is_fclose (trace (snd s)) = count_events is_fclose (trace w) + 1.
Proof.
  induction n as [|n IH]; intros fh uri v w Hlen s; subst s;
    rewrite repeat_S, file_run_cons; cbn [file_perform];
    rewrite file_update_read; cbn [snd].
  - destruct (unread fh) as [|c rest] eqn:Hu; [|cbn in Hlen; lia].
    rewrite (fgets_none fh Hu). cbn [repeat file_run fold_left fst snd TextFileStream._fh
                                      TextFileStream._value trace].
    split; [reflexivity|]. split; [reflexivity|].
    rewrite count_events_app. reflexivity.
  - destruct (unread fh) as [|c rest] eqn:Hu.
    + rewrite (fgets_none fh Hu).
      rewrite file_run_closed by reflexivity.
      cbn [fst snd TextFileStream._fh TextFileStream._value trace].
      split; [reflexivity|]. split; [reflexivity|].
      rewrite count_events_app. reflexivity.
    + rewrite (fgets_some fh Hu).
      assert (Hr : String.length (snd (read_line (BUFSZ - 1) (unread fh))) <= n).
      { pose proof (read_rest_shorter Hu) as Hlt. rewrite Hu in Hlt at 2. lia. }
      destruct (IH (mkFILE (snd (read_line (BUFSZ - 1) (unread fh))) (written fh)) uri
                   [createNode NItem (c_str (fst (read_line (BUFSZ - 1) (unread fh))))]
                   (mkWorld (trace w ++ [EFgets]) (pulled w) (cached w)) Hr)
        as (Hh & Hv & Hc).
      split; [exact Hh|]. split; [exact Hv|].
      rewrite Hc. cbn [trace]. rewrite count_events_app. cbn. lia.
Qed.

(** X8.  Reading always comes to an end.  A file stream whose handle
    has [n] characters left is closed after at most [n + 2] calls of
    [update] (one more than [n + 1] for the first call of a fresh
    stream, which does not read): the handle is then null, the value
    empty, and [fclose] has been called exactly once. *)
Theorem file_reading_ends_closed
        (E : Env) (fr : bool) (fh : FILE) (uri : string) (v : list Value) (w : World) :
  let s := file_run E (repeat FUpdate (2 + String.length (unread fh)))
                    (TextFileStream.mk fr (Some fh) uri v, w) in
  TextFileStream._fh (fst s) = None
  /\ TextFileStream._value (fst s) = []
  /\ count_events is_fclose (trace (snd s)) = count_events is_fclose (trace w) + 1.
Proof.
  intro s. subst s. destruct fr.
  - change (2 + String.length (unread fh)) with (S (S (String.length (unread fh)))).
    rewrite repeat_S, file_run_cons. cbn [file_perform].
    rewrite file_update_fresh. cbn [snd].
    apply (@file_reads_to_end E (String.length (unread fh)) fh uri _ w (le_n _)).
  - apply (@file_reads_to_end E (S (String.length (unread fh))) fh uri v w).
    lia.
Qed.

Lemma read_all_S (n : nat) (s : TextFileStream.state) :
  read_all (S n) s
  = match TextFileStream._value (fst (snd (TextFileStream.update s))) with
    | [Atomic (Node _ name)] => name :: read_all n (snd (TextFileStream.update s))
    | _ => []
    end.
Proof. reflexivity. Qed.

Lemma read_all_round_trip (n : nat) :
  forall fh uri v w,
    no_nul (unread fh) = true ->
    String.length (unread fh) <= n ->
    concat_strings (read_all (S n) (TextFileStream.mk false (Some fh) uri v, w))
    = unread fh.
Proof.
  induction n as [|n IH]; intros fh uri v w Hnn Hlen;
    rewrite read_all_S, file_update_read; cbn [snd].
  - destruct (unread fh) as [|c rest] eqn:Hu; [|cbn in Hlen; lia].
    rewrite (fgets_none fh Hu). reflexivity.
  - destruct (unread fh) as [|c rest] eqn:Hu.
    + rewrite (fgets_none fh Hu). reflexivity.
    + rewrite (fgets_some fh Hu).
      pose proof (read_line_split (BUFSZ - 1) (unread fh)) as Hsplit.
      assert (Hnn2 : no_nul (fst (read_line (BUFSZ - 1) (unread fh))) = true
                     /\ no_nul (snd (read_line (BUFSZ - 1) (unread fh))) = true).
      { apply andb_true_iff. rewrite <- no_nul_append, Hsplit, Hu. exact Hnn. }
      destruct Hnn2 as [Hl Hr].
      assert (Hlen2 : String.length (snd (read_line (BUFSZ - 1) (unread fh))) <= n).
      { pose proof (read_rest_shorter Hu) as Hlt. rewrite Hu in Hlt at 2. lia. }
      cbn [fst TextFileStream._value createNode].
      change (concat_strings (?x :: ?l)) with (String.append x (concat_strings l)).
      rewrite (IH (mkFILE (snd (read_line (BUFSZ - 1) (unread fh))) (written fh))
                  uri _ _ Hr Hlen2).
      cbn [unread]. rewrite (c_str_no_nul _ Hl), <- Hu. exact Hsplit.
Qed.

(** X9.  Nothing is lost or reordered by reading: on a file stream
    past its first call, the names of the items that successive [update]
    calls deliver, joined together, are exactly the bytes the handle had
    left, provided those hold no NUL byte. *)
Theorem file_reading_round_trip
        (fh : FILE) (uri : string) (v : list Value) (w : World) :
  no_nul (unread fh) = true ->
  concat_strings (read_all (S (String.length (unread fh)))
                           (TextFileStream.mk false (Some fh) uri v, w))
  = unread fh.
Proof. intro H. apply read_all_round_trip; [exact H | apply le_n]. Qed.

Lemma file_reading_round_trip_witness :
  no_nul two_lines = true
  /\ read_all 11 (open_file, quiet_world)
     = [String.append "alpha" (String NL EmptyString);
        String.append "beta" (String NL EmptyString)]
  /\ concat_strings (read_all 12 (open_file, quiet_world)) = two_lines.
Proof.
  split; [reflexivity|]. split; [reflexivity|].
  exact (@file_reading_round_trip (mkFILE two_lines EmptyString)
           "file:///tmp/notes.txt" [] quiet_world eq_refl).
Defined.

(* ================================================================== *)
(** ** Construction: the ways it fails                                 *)
(* ================================================================== *)

(** X10.  Construction from a handle looks at the type of the handle
    before anything else: an atom that is not a SensoryNode (any link,
    any other node, whatever its name) is refused with the
    expecting-SensoryNode exception and the world is left as it was, so
    no file is opened; a SensoryNode is constructed from exactly as from
    its name. *)
Theorem handle_constructor_checks_type (E : Env) (senso : Atom) (w : World) :
  (get_type (Atomic senso) <> SENSORY_NODE ->
   TextFileStream.create_from_handle E senso w
   = (Throw (ExpectingSensoryNode senso), w))
  /\ (forall url, senso = Node NSensory url ->
      TextFileStream.create_from_handle E senso w = TextFileStream.create E url w).
Proof.
  split.
  - intro H. unfold TextFileStream.create_from_handle.
    destruct senso as [[| |] name|t oset]; try reflexivity.
    + exfalso. apply H. reflexivity.
    + destruct t; reflexivity.
  - intros url ->. reflexivity.
Qed.

Lemma handle_constructor_checks_type_witness :
  get_type (Atomic (Node NItem "file:///tmp/notes.txt")) <> SENSORY_NODE
  /\ TextFileStream.create_from_handle sample_env (Node NItem "file:///tmp/notes.txt")
       quiet_world
     = (Throw (ExpectingSensoryNode (Node NItem "file:///tmp/notes.txt")), quiet_world)
  /\ fst (TextFileStream.create_from_handle sample_env
            (Node NSensory "file:///tmp/notes.txt") quiet_world)
     = fst (TextFileStream.create sample_env "file:///tmp/notes.txt" quiet_world).
Proof.
  split; [discriminate|]. split.
  - apply (proj1 (handle_constructor_checks_type sample_env
                    (Node NItem "file:///tmp/notes.txt") quiet_world)).
    discriminate.
  - rewrite (proj2 (handle_constructor_checks_type sample_env
                      (Node NSensory "file:///tmp/notes.txt") quiet_world)
                   "file:///tmp/notes.txt" eq_refl).
    reflexivity.
Defined.



(* ================================================================== *)
(** ** Construction and teardown of the terminal stream                *)
(* ================================================================== *)

Lemma terminal_create_cases (E : Env) (tr : list event)
      (pl : StreamId -> nat) (ca : StreamId -> list Value) :
  TerminalStream.create E (mkWorld tr pl ca)
  = match posix_openpt E with
    | None => (Throw CantOpenPTY, mkWorld (tr ++ [EOpenpt]) pl ca)
    | Some fd =>
        if negb (unlockpt E fd)
        then (Throw CantUnlockPTY, mkWorld (tr ++ [EOpenpt; EUnlockpt fd]) pl ca)
        else
          match ptsname_r E fd with
          | None =>
              (Throw CantGetPTYName,
               mkWorld (tr ++ [EOpenpt; EUnlockpt fd; EPtsname fd]) pl ca)
          | Some pts =>
              if Z.eqb (-1) (fork E)
              then (Throw FailedToFork,
                    mkWorld (tr ++ [EOpenpt; EUnlockpt fd; EPtsname fd; EFork]) pl ca)
              else
                (Ret (TerminalStream.mk
                        (match fopen E pts with inl fh => Some fh | inr _ => None end)
                        (fork E) []),
                 mkWorld (tr ++ [EOpenpt; EUnlockpt fd; EPtsname fd; EFork]
                             ++ (if Z.eqb 0 (fork E) then [EExecl pts fd] else [])
                             ++ [EClose fd; EFopen pts]) pl ca)
          end
    end.
Proof.
  unfold TerminalStream.create, TerminalStream.init, bind, set_obj, throw, log, ret.
  cbn [fst snd trace pulled cached].
  destruct (posix_openpt E) as [fd|]; [|reflexivity]. cbn [fst snd trace pulled cached].
  destruct (negb (unlockpt E fd)); cbn [fst snd trace pulled cached].
  { rewrite <- app_assoc. reflexivity. }
  destruct (ptsname_r E fd) as [pts|]; cbn [fst snd trace pulled cached].
  2:{ rewrite <- !app_assoc. reflexivity. }
  destruct (Z.eqb (-1) (fork E)).
  { rewrite <- !app_assoc. reflexivity. }
  destruct (Z.eqb 0 (fork E)); cbn [fst snd trace pulled cached];
    rewrite <- !app_assoc; reflexivity.
Qed.

(** X12.  When construction of a terminal stream fails after the
    master descriptor has been obtained (the unlock fails, the slave name
    cannot be had, or the fork fails), the exception of the first failing
    step is thrown and the descriptor is never closed: no [close] is
    issued on that path, and no slave is opened. *)
Theorem terminal_init_failure_leaves_descriptor_open (E : Env) (w : World) (fd : Z) :
  posix_openpt E = Some fd ->
  unlockpt E fd = false \/ ptsname_r E fd = None \/ fork E = (-1)%Z ->
  let r := TerminalStream.create E w in
  fst r = Throw (if negb (unlockpt E fd) then CantUnlockPTY
                 else match ptsname_r E fd with
                      | None => CantGetPTYName
                      | Some _ => FailedToFork
                      end)
  /\ count_events is_close_fd (trace (snd r)) = count_events is_close_fd (trace w)
  /\ (forall path, ~ In (EFopen path) (skipn (length (trace w)) (trace (snd r))))
  /\ exists tl, trace (snd r) = trace w ++ EOpenpt :: EUnlockpt fd :: tl.
Proof.
  intros Hp Hfail r. subst r. destruct w as [tr pl ca].
  rewrite terminal_create_cases, Hp. cbn [trace].
  assert (Hskip : forall tl : list event, skipn (length tr) (tr ++ tl) = tl).
  { intro tl. rewrite skipn_app, skipn_all, Nat.sub_diag. reflexivity. }
  destruct (negb (unlockpt E fd)) eqn:Hu.
  { cbn [fst snd trace]. split; [reflexivity|]. split.
    - rewrite count_events_app. cbn. lia.
    - split; [|exists []; reflexivity].
      intros path. rewrite Hskip. cbn. intros [H|[H|[]]]; discriminate H. }
  destruct (ptsname_r E fd) as [pts|] eqn:Hn.
  2:{ cbn [fst snd trace]. split; [reflexivity|]. split.
      - rewrite count_events_app. cbn. lia.
      - split; [|exists [EPtsname fd]; reflexivity].
        intros path. rewrite Hskip. cbn. intros [H|[H|[H|[]]]]; discriminate H. }
  assert (Hf : Z.eqb (-1) (fork E) = true).
  { destruct Hfail as [H|[H|H]].
    - rewrite H in Hu. discriminate Hu.
    - discriminate H.
    - rewrite H. reflexivity. }
  rewrite Hf. cbn [fst snd trace]. split; [reflexivity|]. split.
  - rewrite count_events_app. cbn. lia.
  - split; [|exists [EPtsname fd; EFork]; reflexivity].
    intros path. rewrite Hskip. cbn. intros [H|[H|[H|[H|[]]]]]; discriminate H.
Qed.

Lemma terminal_init_failure_leaves_descriptor_open_witness :
  let E := mkEnv (fopen sample_env) (is_executable sample_env) (execute sample_env)
                 (upstream sample_env) (Some 5%Z) (fun _ => true)
                 (fun _ => Some "/dev/pts/7") (-1)%Z (freed sample_env) in
  fst (TerminalStream.create E quiet_world) = Throw FailedToFork
  /\ count_events is_close_fd (trace (snd (TerminalStream.create E quiet_world))) = 0
  /\ trace (snd (TerminalStream.create E quiet_world))
     = [EOpenpt; EUnlockpt 5; EPtsname 5; EFork].
Proof.
  intro E.
  destruct (@terminal_init_failure_leaves_descriptor_open E quiet_world 5%Z eq_refl
              (or_intror (or_intror eq_refl))) as (Hr & Hc & _).
  split; [exact Hr|]. split; [exact Hc|]. reflexivity.
Defined.

(** X13.  The open of the slave device is not checked.  When every
    step up to the fork succeeds (in the parent) and that last [fopen]
    fails, construction still returns a stream: it is born closed, with
    the child tracked.  On it [write_out] throws stream-not-open,
    [update] does nothing, and [halt] kills the child (once) without any
    [fclose]. *)
Theorem terminal_born_closed
        (E : Env) (w : World) (fd pid norr : Z) (pts : string)
        (dwo : nat -> Atom -> M TerminalStream.state Value) :
  posix_openpt E = Some fd ->
  unlockpt E fd = true ->
  ptsname_r E fd = Some pts ->
  fork E = pid -> pid <> (-1)%Z -> pid <> 0%Z ->
  fopen E pts = inr norr ->
  exists w1,
    TerminalStream.create E w = (Ret (TerminalStream.mk None pid []), w1)
    /\ trace w1 = trace w ++ [EOpenpt; EUnlockpt fd; EPtsname fd; EFork; EClose fd; EFopen pts]
    /\ (forall fuel cref,
          TerminalStream.write_out dwo fuel cref (TerminalStream.mk None pid [], w1)
          = (Throw StreamNotOpen, (TerminalStream.mk None pid [], w1)))
    /\ TerminalStream.update (TerminalStream.mk None pid [], w1)
       = (Ret tt, (TerminalStream.mk None pid [], w1))
    /\ TerminalStream.halt (TerminalStream.mk None pid [], w1)
       = (Ret tt,
          (TerminalStream.mk None 0 [],
           mkWorld (trace w1 ++ [EKill pid]) (pulled w1) (cached w1))).
Proof.
  intros Hp Hu Hn Hf Hm1 H0 Ho. destruct w as [tr pl ca].
  rewrite terminal_create_cases, Hp, Hu, Hn, Hf, Ho. cbn [negb].
  assert (Z.eqb (-1) pid = false) as -> by (apply Z.eqb_neq; congruence).
  assert (Z.eqb 0 pid = false) as -> by (apply Z.eqb_neq; congruence).
  eexists. split; [reflexivity|]. cbn [trace app].
  split; [reflexivity|]. split; [|split].
  - intros fuel cref. apply terminal_write_out_closed. reflexivity.
  - reflexivity.
  - rewrite halt_spec. cbn [TerminalStream._fh TerminalStream._xterm_pid close_events
                            trace pulled cached].
    unfold kill_events.
    assert (Z.eqb pid 0 = false) as -> by (apply Z.eqb_neq; congruence).
    rewrite app_nil_r. reflexivity.
Qed.

Lemma terminal_born_closed_witness :
  let E := mkEnv (fun _ => inr 13%Z) (is_executable sample_env) (execute sample_env)
                 (upstream sample_env) (Some 5%Z) (fun _ => true)
                 (fun _ => Some "/dev/pts/7") 4242%Z (freed sample_env) in
  exists w1,
    TerminalStream.create E quiet_world = (Ret (TerminalStream.mk None 4242 []), w1)
    /\ trace (snd (snd (TerminalStream.halt (TerminalStream.mk None 4242 [], w1))))
       = [EOpenpt; EUnlockpt 5; EPtsname 5; EFork; EClose 5; EFopen "/dev/pts/7"; EKill 4242].
Proof.
  intro E.
  destruct (@terminal_born_closed E quiet_world 5%Z 4242%Z 13%Z "/dev/pts/7" echo_write_out
              eq_refl eq_refl eq_refl eq_refl) as (w1 & Hc & Ht & _ & _ & Hh);
    [discriminate | discriminate | reflexivity |].
  exists w1. split; [exact Hc|]. rewrite Hh. cbn [snd trace]. rewrite Ht. reflexivity.
Defined.

(** X14.  [halt] is final.  After it no call has any effect: whatever
    sequence of [update], [halt] and [write_out] follows, and whatever the
    base-class writer would do, the state (object and world, so also the
    trace of system calls) stays exactly the one [halt] left. *)
Theorem halt_is_final
        (dwo : nat -> Atom -> M TerminalStream.state Value)
        (cs : list terminal_call) (s : TerminalStream.state) :
  terminal_run dwo cs (snd (TerminalStream.halt s)) = snd (TerminalStream.halt s).
Proof.
  destruct s as [o w]. rewrite halt_spec. cbn [snd].
  set (w1 := mkWorld _ _ _). clearbody w1.
  induction cs as [|c cs IH]; [reflexivity|].
  cbn [terminal_run fold_left].
  assert (Hc : terminal_perform dwo c (TerminalStream.mk None 0 [], w1)
               = (TerminalStream.mk None 0 [], w1)).
  { destruct c; cbn [terminal_perform].
    - reflexivity.
    - rewrite halt_spec. destruct w1 as [tr pl ca].
      cbn [TerminalStream._fh TerminalStream._xterm_pid close_events kill_events
           trace pulled cached Z.eqb snd].
      rewrite !app_nil_r. reflexivity.
    - rewrite terminal_write_out_closed by reflexivity. reflexivity. }
  rewrite Hc. exact IH.
Qed.

(* ================================================================== *)
(** ** Every resource is released exactly once                         *)
(* ================================================================== *)

Lemma file_perform_accounts (E : Env) (c : file_call) (s : TextFileStream.state) :
  count_events is_fclose (trace (snd (file_perform E c s)))
  + pending_close (TextFileStream._fh (fst (file_perform E c s)))
  = count_events is_fclose (trace (snd s)) + pending_close (TextFileStream._fh (fst s)).
Proof.
  destruct c; cbn [file_perform].
  - destruct s as [[fr [fh|] uri v] w].
    + destruct fr.
      * rewrite file_update_fresh. reflexivity.
      * rewrite file_update_read. cbn [snd].
        destruct (fgets BUFSZ fh) as [[buff|] fh'];
          cbn [fst snd trace TextFileStream._fh pending_close];
          rewrite count_events_app; cbn; lia.
    + rewrite file_update_closed by reflexivity. reflexivity.
  - destruct (write_out_effects E fuel cref s) as (tl & T & HP & Hf & _).
    rewrite T, Hf, !count_events_app.
    rewrite (@count_events_none drain_event is_fclose tl); [|
      intros e He; destruct e; try discriminate He; reflexivity | exact HP].
    destruct (TextFileStream._fh (fst s)); destruct (evaluates E cref s);
      cbn; lia.
Qed.

(** X15.  A file handle is closed exactly once.  Take a file stream in
    any state, make any calls of [update] and [write_out], with any
    outcomes, and then destroy it: the number of [fclose] calls made is
    one if the handle was open at the start and none if it was null.  So
    there is no second [fclose] after end of file, and no handle is left
    open. *)
Theorem file_handle_closed_exactly_once
        (E : Env) (cs : list file_call) (s : TextFileStream.state) :
  let final := snd (TextFileStream.destroy (file_run E cs s)) in
  count_events is_fclose (trace (snd final))
  = count_events is_fclose (trace (snd s)) + pending_close (TextFileStream._fh (fst s)).
Proof.
  intro final. subst final.
  assert (Hrun : count_events is_fclose (trace (snd (file_run E cs s)))
                 + pending_close (TextFileStream._fh (fst (file_run E cs s)))
                 = count_events is_fclose (trace (snd s))
                   + pending_close (TextFileStream._fh (fst s))).
  { revert s. induction cs as [|c cs IH]; intro s; [reflexivity|].
    rewrite file_run_cons, IH. apply file_perform_accounts. }
  rewrite <- Hrun. destruct (file_run E cs s) as [[fr [fh|] uri v] w].
  - unfold TextFileStream.destroy, bind, get_obj, log.
    cbn [fst snd trace TextFileStream._fh pending_close].
    rewrite count_events_app. reflexivity.
  - unfold TextFileStream.destroy, bind, get_obj, ret.
    cbn [fst snd trace TextFileStream._fh pending_close]. lia.
Qed.

Lemma terminal_update_open (o : TerminalStream.t) (w : World) (fh : FILE) :
  TerminalStream._fh o = Some fh ->
  TerminalStream.update (o, w)
  = match fgets BUFSZ fh with
    | (None, _) =>
        TerminalStream.halt (o, mkWorld (trace w ++ [EFgets]) (pulled w) (cached w))
    | (Some buff, fh') =>
        (Ret tt,
         (TerminalStream.mk (Some fh') (TerminalStream._xterm_pid o)
                            [createNode NItem (c_str buff)],
          mkWorld (trace w ++ [EFgets]) (pulled w) (cached w)))
    end.
Proof.
  intro H. unfold TerminalStream.update, bind, get_obj, log. cbn [fst snd].
  rewrite H. destruct (fgets BUFSZ fh) as [[buff|] fh']; reflexivity.
Qed.

Lemma halt_accounts (o : TerminalStream.t) (w : World) :
  let s' := snd (TerminalStream.halt (o, w)) in
  TerminalStream._fh (fst s') = None
  /\ TerminalStream._xterm_pid (fst s') = 0%Z
  /\ count_events is_fclose (trace (snd s'))
     = count_events is_fclose (trace w) + pending_close (TerminalStream._fh o)
  /\ count_events is_kill (trace (snd s'))
     = count_events is_kill (trace w) + pending_kill (TerminalStream._xterm_pid o).
Proof.
  cbv zeta. rewrite halt_spec. cbn [fst snd trace TerminalStream._fh TerminalStream._xterm_pid].
  split; [reflexivity|]. split; [reflexivity|].
  rewrite !count_events_app. unfold close_events, kill_events, pending_close, pending_kill.
  destruct (TerminalStream._fh o); destruct (Z.eqb (TerminalStream._xterm_pid o) 0);
    cbn; lia.
Qed.

Section TerminalAccounts.
Variable dwo : nat -> Atom -> M TerminalStream.state Value.
Hypothesis dwo_quiet : quiet_writer dwo.

Lemma terminal_perform_accounts (c : terminal_call) (s : TerminalStream.state) :
  let s' := terminal_perform dwo c s in
  count_events is_fclose (trace (snd s')) + pending_close (TerminalStream._fh (fst s'))
  = count_events is_fclose (trace (snd s)) + pending_close (TerminalStream._fh (fst s))
  /\ count_events is_kill (trace (snd s')) + pending_kill (TerminalStream._xterm_pid (fst s'))
     = count_events is_kill (trace (snd s)) + pending_kill (TerminalStream._xterm_pid (fst s)).
Proof.
  cbv zeta. destruct s as [o w]. destruct c; cbn [terminal_perform].
  - destruct (TerminalStream._fh o) as [fh|] eqn:Hh.
    + rewrite (terminal_update_open o w Hh).
      destruct (fgets BUFSZ fh) as [[buff|] fh'].
      * cbn [fst snd trace TerminalStream._fh TerminalStream._xterm_pid pending_close].
        rewrite ?Hh, !count_events_app. cbn. lia.
      * destruct (halt_accounts o (mkWorld (trace w ++ [EFgets]) (pulled w) (cached w)))
          as (H1 & H2 & H3 & H4).
        rewrite H1, H2, H3, H4. cbn [trace fst snd]. rewrite !count_events_app.
        cbn. lia.
    + rewrite terminal_update_closed by exact Hh.
      destruct o as [h pid v]. cbn in Hh. subst h. cbn. lia.
  - destruct (halt_accounts o w) as (H1 & H2 & H3 & H4).
    rewrite H1, H2, H3, H4. cbn. lia.
  - unfold TerminalStream.write_out, bind, get_obj. cbn [fst snd].
    destruct (TerminalStream._fh o) as [fh|] eqn:Hh.
    + destruct (dwo_quiet fuel cref (o, w)) as (H1 & H2 & H3 & H4).
      cbn [fst snd] in *. rewrite H1, H2, H3, H4, ?Hh. split; reflexivity.
    + unfold throw. cbn [fst snd]. rewrite Hh. split; reflexivity.
Qed.

Lemma terminal_run_accounts (cs : list terminal_call) :
  forall s,
    let s' := terminal_run dwo cs s in
    count_events is_fclose (trace (snd s')) + pending_close (TerminalStream._fh (fst s'))
    = count_events is_fclose (trace (snd s)) + pending_close (TerminalStream._fh (fst s))
    /\ count_events is_kill (trace (snd s')) + pending_kill (TerminalStream._xterm_pid (fst s'))
       = count_events is_kill (trace (snd s)) + pending_kill (TerminalStream._xterm_pid (fst s)).
Proof.
  induction cs as [|c cs IH]; intro s; [split; reflexivity|].
  cbv zeta. cbn [terminal_run fold_left].
  destruct (IH (terminal_perform dwo c s)) as [Hc Hk].
  destruct (terminal_perform_accounts c s) as [Hc1 Hk1].
  unfold terminal_run in *. split; congruence.
Qed.
End TerminalAccounts.

(** X16.  A terminal stream gives back what it took exactly once.
    Take a terminal stream in any state, make any calls of [update],
    [halt] and [write_out] (the base-class writer being one that neither
    closes, kills nor swaps the handle or the child), and then destroy it:
    one [fclose] has been made if the handle was open at the start, none
    otherwise, and one [kill] if a child was tracked, none otherwise.  In
    particular the child is never signalled twice. *)
Theorem terminal_releases_exactly_once
        (dwo : nat -> Atom -> M TerminalStream.state Value)
        (cs : list terminal_call) (s : TerminalStream.state) :
  quiet_writer dwo ->
  let final := snd (TerminalStream.destroy (terminal_run dwo cs s)) in
  count_events is_fclose (trace (snd final))
  = count_events is_fclose (trace (snd s)) + pending_close (TerminalStream._fh (fst s))
  /\ count_events is_kill (trace (snd final))
     = count_events is_kill (trace (snd s))
       + pending_kill (TerminalStream._xterm_pid (fst s)).
Proof.
  intros Hq final. subst final.
  destruct (terminal_run_accounts Hq cs s) as [Hc Hk].
  unfold TerminalStream.destroy.
  destruct (terminal_run dwo cs s) as [o w].
  destruct (halt_accounts o w) as (_ & _ & H3 & H4).
  cbn [fst snd] in *. rewrite H3, H4. split; lia.
Qed.

Lemma terminal_releases_exactly_once_witness :
  quiet_writer echo_write_out
  /\ let final := snd (TerminalStream.destroy
                         (terminal_run echo_write_out
                            [TWriteOut 1 (Node NItem "ls"); TUpdate; THalt; TUpdate]
                            (typing_terminal, quiet_world))) in
     count_events is_fclose (trace (snd final)) = 1
     /\ count_events is_kill (trace (snd final)) = 1.
Proof.
  assert (Hq : quiet_writer echo_write_out).
  { intros fuel cref s. repeat split. }
  split; [exact Hq|].
  exact (@terminal_releases_exactly_once echo_write_out
           [TWriteOut 1 (Node NItem "ls"); TUpdate; THalt; TUpdate]
           (typing_terminal, quiet_world) Hq).
Defined.

(* ================================================================== *)
(** ** Freshness, the URI and writes                                   *)
(* ================================================================== *)

Lemma file_perform_frame (E : Env) (c : file_call) (s : TextFileStream.state) :
  TextFileStream._uri (fst (file_perform E c s)) = TextFileStream._uri (fst s)
  /\ (TextFileStream._fresh (fst s) = false ->
      TextFileStream._fresh (fst (file_perform E c s)) = false)
  /\ (is_write_call c = true ->
      TextFileStream._fresh (fst (file_perform E c s)) = TextFileStream._fresh (fst s)
      /\ pending_close (TextFileStream._fh (fst (file_perform E c s)))
         = pending_close (TextFileStream._fh (fst s))
      /\ count_events is_fgets (trace (snd (file_perform E c s)))
         = count_events is_fgets (trace (snd s))).
Proof.
  destruct c; cbn [file_perform is_write_call].
  - split; [|split; [|discriminate]].
    + destruct s as [[fr [fh|] uri v] w]; [destruct fr|].
      * rewrite file_update_fresh. reflexivity.
      * rewrite file_update_read. cbn [snd].
        destruct (fgets BUFSZ fh) as [[buff|] fh']; reflexivity.
      * rewrite file_update_closed by reflexivity. reflexivity.
    + destruct s as [[fr [fh|] uri v] w]; cbn [fst TextFileStream._fresh]; intro Hf.
      * subst fr. rewrite file_update_read. cbn [snd].
        destruct (fgets BUFSZ fh) as [[buff|] fh']; reflexivity.
      * rewrite file_update_closed by reflexivity. exact Hf.
  - destruct (write_out_effects E fuel cref s) as (tl & T & HP & Hf & Hfr & Hu & _).
    split; [exact Hu|]. split; [intro H; rewrite Hfr; exact H|].
    intros _. split; [exact Hfr|]. split.
    + rewrite Hf. destruct (TextFileStream._fh (fst s)); reflexivity.
    + rewrite T, !count_events_app.
      rewrite (@count_events_none drain_event is_fgets tl); [|
        intros e He; destruct e; try discriminate He; reflexivity | exact HP].
      destruct (evaluates E cref s); cbn; lia.
Qed.

(** X17.  Over any sequence of calls the URI of a file stream never
    changes and a consumed freshness never comes back.  Writes do not
    consume it: after any number of [write_out] calls on a fresh open
    stream, whatever they wrote and however they ended, no [fgets] has
    been made and the next [update] still answers with the ItemNode of
    the URI, without reading. *)
Theorem freshness_outlives_writes
        (E : Env) (cs : list file_call) (s : TextFileStream.state) :
  TextFileStream._uri (fst (file_run E cs s)) = TextFileStream._uri (fst s)
  /\ (TextFileStream._fresh (fst s) = false ->
      TextFileStream._fresh (fst (file_run E cs s)) = false)
  /\ (forallb is_write_call cs = true ->
      TextFileStream._fresh (fst s) = true ->
      TextFileStream._fh (fst s) <> None ->
      let s1 := file_run E cs s in
      count_events is_fgets (trace (snd s1)) = count_events is_fgets (trace (snd s))
      /\ TextFileStream.update s1
         = (Ret tt,
            (TextFileStream.mk false (TextFileStream._fh (fst s1))
                               (TextFileStream._uri (fst s))
                               [createNode NItem (TextFileStream._uri (fst s))],
             snd s1))).
Proof.
  revert s. induction cs as [|c cs IH]; intro s.
  - split; [reflexivity|]. split; [intro H; exact H|].
    intros _ Hf Hh s1. subst s1. cbn [file_run fold_left].
    split; [reflexivity|].
    destruct s as [[fr [fh|] uri v] w]; cbn [fst snd TextFileStream._fresh
      TextFileStream._fh TextFileStream._uri] in *; [|congruence].
    subst fr. apply file_update_fresh.
  - rewrite file_run_cons.
    destruct (IH (file_perform E c s)) as (Hu & Hfr & Hw).
    destruct (file_perform_frame E c s) as (Hu1 & Hfr1 & Hw1).
    split; [congruence|]. split; [intro H; apply Hfr, Hfr1, H|].
    intros Hall Hf Hh. cbn [forallb] in Hall. apply andb_true_iff in Hall.
    destruct Hall as [Hc Hcs]. destruct (Hw1 Hc) as (Hf1 & Hp1 & Hg1).
    assert (Hh1 : TextFileStream._fh (fst (file_perform E c s)) <> None).
    { intro Hn. rewrite Hn in Hp1. destruct (TextFileStream._fh (fst s));
        [discriminate Hp1 | congruence]. }
    destruct (Hw Hcs (eq_trans Hf1 Hf) Hh1) as (Hg & Hup).
    cbv zeta. rewrite Hg, Hg1, Hup, Hu1. split; reflexivity.
Qed.

Lemma freshness_outlives_writes_witness :
  let fresh_file := TextFileStream.mk true (Some (mkFILE two_lines EmptyString))
                                      "file:///tmp/notes.txt" [] in
  let cs := [FWriteOut 1 (Node NItem "foo");
             FWriteOut 2 (Link LExecutionOutput [Node NConcept "once"]);
             FWriteOut 1 (Link LOrdered [])] in
  forallb is_write_call cs = true
  /\ TextFileStream._value
       (fst (snd (TextFileStream.update (file_run sample_env cs (fresh_file, quiet_world)))))
     = [Atomic (Node NItem "file:///tmp/notes.txt")]
  /\ sink (file_run sample_env cs (fresh_file, quiet_world)) = Some " foohello".
Proof.
  intros fresh_file cs. split; [reflexivity|]. split; [|reflexivity].
  destruct (freshness_outlives_writes sample_env cs (fresh_file, quiet_world))
    as (_ & _ & Hw).
  destruct (Hw eq_refl eq_refl) as (_ & Hup); [discriminate|].
  rewrite Hup. reflexivity.
Defined.

(* ================================================================== *)
(** ** The terminal's write primitive                                  *)
(* ================================================================== *)

(** X18.  [do_write] on an open terminal sends the characters of the
    string, up to its first NUL, to the handle and touches nothing else;
    a run of calls leaves the pieces joined in order with nothing
    between, the input side, the child and the value being as before.
    On a null handle a call has no defined behaviour. *)
Theorem terminal_do_write_appends (strs : list string) :
  forall fh pid v w,
    for_each TerminalStream.do_write strs (TerminalStream.mk (Some fh) pid v, w)
    = (Ret tt,
       (TerminalStream.mk
          (Some (mkFILE (unread fh)
                        (String.append (written fh) (concat_strings (map c_str strs)))))
          pid v,
        mkWorld (trace w ++ map (fun str => EFprintf (c_str str)) strs)
                (pulled w) (cached w)))
    /\ (forall str,
          TerminalStream.do_write str (TerminalStream.mk None pid v, w)
          = (Undefined, (TerminalStream.mk None pid v, w))).
Proof.
  induction strs as [|str strs IH]; intros fh pid v w; (split; [|reflexivity]).
  - destruct w as [tr pl ca]. destruct fh as [u wr]. cbn.
    rewrite append_empty_r, app_nil_r. reflexivity.
  - cbn [for_each]. unfold bind at 1.
    assert (H1 : TerminalStream.do_write str (TerminalStream.mk (Some fh) pid v, w)
                 = (Ret tt,
                    (TerminalStream.mk (Some (fputs (c_str str) fh)) pid v,
                     mkWorld (trace w ++ [EFprintf (c_str str)]) (pulled w) (cached w))))
      by reflexivity.
    rewrite H1. rewrite (proj1 (IH _ pid v _)).
    cbn [fputs unread written trace pulled cached map concat_strings fold_right].
    rewrite append_assoc, <- app_assoc. reflexivity.
Qed.

(* ================================================================== *)
(** ** Writing a value that is not a stream                            *)
(* ================================================================== *)

(** X19.  For content that is not a streaming value, [write_out] on
    an open handle does what the printing of that content does, and
    flushes only when the printing succeeds.  Let [p] be the result of
    [prt_value] on the content, started in the state [write_out] was
    called in (with the evaluation logged first when the reference is
    executable).  The printing itself never flushes.  When [p] is a normal
    return, [write_out] returns the content, in the state [p] ended in
    with one [fflush] added after everything printed.  When [p] is an
    exception, [write_out] throws that same exception in the very state
    [p] ended in: no flush is made, and what was printed before the
    failure is left unflushed.  The same holds when the printing does not
    finish. *)
Theorem write_out_flushes_only_on_success
        (E : Env) (fuel : nat) (cref : Atom) (content : Value)
        (s : TextFileStream.state) (fh : FILE) :
  TextFileStream._fh (fst s) = Some fh ->
  content_of E cref = Some content ->
  is_type content LINK_STREAM_VALUE = false ->
  let p := TextFileStream.prt_value E fuel content (printing_state E cref s) in
  let r := TextFileStream.write_out E fuel cref s in
  count_events is_fflush (trace (snd (snd p))) = count_events is_fflush (trace (snd s))
  /\ match fst p with
     | Ret _ => r = (Ret content, flushed (snd p))
     | Throw e => r = (Throw e, snd p)
     | Diverge => r = (Diverge, snd p)
     | Undefined => r = (Undefined, snd p)
     end
  /\ count_events is_fflush (trace (snd (snd r)))
     = count_events is_fflush (trace (snd s))
       + match fst p with Ret _ => 1 | _ => 0 end.
Proof.
  intros Hh Hc Hns p r.
  assert (Hs0 : TextFileStream._fh (fst (printing_state E cref s)) = Some fh).
  { unfold printing_state. destruct (is_executable E cref); exact Hh. }
  assert (Hcount : count_events is_fflush (trace (snd (printing_state E cref s)))
                   = count_events is_fflush (trace (snd s))).
  { unfold printing_state. destruct (is_executable E cref); [|reflexivity].
    cbn [snd trace]. rewrite count_events_app. cbn. lia. }
  assert (Hr : r = bind (TextFileStream.prt_value E fuel content)
                        (fun _ => bind TextFileStream.fflush (fun _ => ret content))
                        (printing_state E cref s)).
  { subst r. destruct s as [o w]. cbn [fst snd] in Hh.
    rewrite write_out_cases. cbv zeta. rewrite Hh.
    unfold content_of in Hc. unfold printing_state. cbn [fst snd].
    destruct (is_executable E cref).
    - rewrite Hc, Hns. reflexivity.
    - injection Hc as <-. rewrite Hns. reflexivity. }
  destruct (ser_prt_value E fuel content (printing_state E cref s))
    as (tl & T & HP & Hf & _).
  assert (Hnf : count_events is_fflush tl = 0).
  { apply (@count_events_none serializer_event is_fflush tl); [|exact HP].
    intros e He. destruct e; try discriminate He; reflexivity. }
  fold p in T, Hf. rewrite Hs0 in Hf. cbn [option_map] in Hf.
  assert (Hp : count_events is_fflush (trace (snd (snd p)))
               = count_events is_fflush (trace (snd s))).
  { rewrite T, count_events_app, Hnf, Hcount. lia. }
  assert (Hflush : bind TextFileStream.fflush (fun _ => ret content) (snd p)
                   = (Ret content, flushed (snd p))).
  { unfold TextFileStream.fflush. unfold bind, get_obj, log, ret, flushed.
    cbn [fst snd]. rewrite Hf. reflexivity. }
  assert (Hr' : r = match fst p with
                    | Ret _ => bind TextFileStream.fflush (fun _ => ret content) (snd p)
                    | Throw e => (Throw e, snd p)
                    | Diverge => (Diverge, snd p)
                    | Undefined => (Undefined, snd p)
                    end).
  { rewrite Hr. unfold bind at 1. fold p. destruct p as [[[]|e| |] s1]; reflexivity. }
  rewrite Hflush in Hr'. clear Hr Hflush.
  split; [exact Hp|].
  destruct (fst p) as [[]|e| |]; rewrite Hr'; (split; [reflexivity|]).
  - unfold flushed. cbn [snd trace]. rewrite count_events_app, Hp. reflexivity.
  - cbn [snd]. rewrite Hp. lia.
  - cbn [snd]. rewrite Hp. lia.
  - cbn [snd]. rewrite Hp. lia.
Qed.

Lemma write_out_flushes_only_on_success_witness :
  let good := Link LList [Node NItem "foo"; Node NItem "bar"] in
  let bad := Link LList [Node NItem "foo"; Link LOrdered []] in
  TextFileStream.write_out sample_env 2 good (open_file, quiet_world)
  = (Ret (Atomic good),
     (TextFileStream.mk false (Some (mkFILE EmptyString " foo bar"))
                        "file:///tmp/notes.txt" [],
      mkWorld [EFprintf " foo"; EFprintf " bar"; EFflush] (fun _ => 0) (fun _ => [])))
  /\ TextFileStream.write_out sample_env 2 bad (open_file, quiet_world)
  = (Throw (ExpectingStrings (Atomic (Link LOrdered []))),
     (TextFileStream.mk false (Some (mkFILE EmptyString " foo"))
                        "file:///tmp/notes.txt" [],
      mkWorld [EFprintf " foo"] (fun _ => 0) (fun _ => [])))
  /\ count_events is_fflush
       (trace (snd (snd (TextFileStream.write_out sample_env 2 bad
                           (open_file, quiet_world))))) = 0.
Proof.
  intros good bad.
  pose proof (@write_out_flushes_only_on_success sample_env 2 good (Atomic good)
                (open_file, quiet_world) (mkFILE two_lines EmptyString)
                eq_refl eq_refl eq_refl) as Hgood.
  pose proof (@write_out_flushes_only_on_success sample_env 2 bad (Atomic bad)
                (open_file, quiet_world) (mkFILE two_lines EmptyString)
                eq_refl eq_refl eq_refl) as Hbad.
  cbv zeta in Hgood, Hbad.
  destruct Hgood as (_ & Hg & _). destruct Hbad as (_ & Hb & Hn).
  split; [exact Hg|]. split; [exact Hb | exact Hn].
Defined.
